(** * collectstatic: the static-file collection command of django-staticfiles

    A shallow embedding of [staticfiles/management/commands/collectstatic.py]
    (class [Command]) and the properties of its per-file decision procedure.

    Python objects the command only talks to through an interface (the
    destination storage, the source storages handed out by the finders, the
    finders themselves, [sys.platform], [raw_input], [settings.ROOT]) appear
    as records of observable behaviour.  The command object [self] is the
    state of a small state-and-exception monad. *)

From Stdlib Require Import ZArith.
From stdpp Require Import base gmap sets strings pretty.

#[local] Set Warnings "-clear-no-such-hyp,-register-all".

Open Scope Z_scope.
Open Scope string_scope.

(** ** Exceptions and the command monad *)

Inductive Exception :=
| CommandError (msg : string)
| NotImplementedError.

Inductive outcome (A : Type) :=
| Return (a : A)
| Raise (e : Exception).
Arguments Return {A} a.
Arguments Raise {A} e.

(** ** Storages *)

(** One entry of the destination tree.  [is_link] is what [os.path.islink]
    answers for the entry, [mtime] what [modified_time] reports, [data] the
    file content (or, for a link, the path it points to). *)
Record Entry := mkEntry {
  is_link : bool;
  mtime : Z;
  data : string;
}.

(** The destination storage ([get_storage_class(settings.STORAGE)()]).
    [location = None] is a backend without local paths: [path] raises
    [NotImplementedError].  [has_modified_time = false] is a backend whose
    [modified_time] raises.  [now] is the time stamp [save] gives to what it
    writes.  Entries are keyed by storage name; the local file at
    [path name] is the entry stored under [name], so that [os.path.islink],
    [shutil.copy2] and [os.symlink] on a local path act on that entry.
    Time stamps are integers.  An operation on one name leaves the other
    names alone: the directories [os.makedirs] creates are not entries. *)
Record Storage := mkStorage {
  files : gmap string Entry;
  location : option string;
  has_modified_time : bool;
  now : Z;
}.

Definition storage_path (st : Storage) (name : string) : option string :=
  match location st with
  | Some root => Some (root +:+ "/" +:+ name)
  | None => None
  end.

Definition storage_exists (st : Storage) (name : string) : bool :=
  bool_decide (is_Some (files st !! name)).

(** [None] stands for the exceptions the caller catches
    ([OSError], [NotImplementedError], [AttributeError]). *)
Definition storage_modified_time (st : Storage) (name : string) : option Z :=
  if has_modified_time st then mtime <$> files st !! name else None.

Definition with_files (f : gmap string Entry → gmap string Entry)
    (st : Storage) : Storage :=
  {| files := f (files st); location := location st;
     has_modified_time := has_modified_time st; now := now st |}.

Definition storage_delete (name : string) : Storage → Storage :=
  with_files (delete name).

Definition storage_save (name content : string) (st : Storage) : Storage :=
  with_files (insert name (mkEntry false (now st) content)) st.

(** [os.path.islink] on the local path of [name]. *)
Definition os_path_islink (st : Storage) (name : string) : bool :=
  match files st !! name with
  | Some e => is_link e
  | None => false
  end.

(** [shutil.copy2]: content and metadata of the source file. *)
Definition shutil_copy2 (content : string) (stamp : Z) (name : string)
    : Storage → Storage :=
  with_files (insert name (mkEntry false stamp content)).

(** [os.symlink]: the link resolves to the source file, so the time it
    reports is the source file's. *)
Definition os_symlink (target : string) (stamp : Z) (name : string)
    : Storage → Storage :=
  with_files (insert name (mkEntry true stamp target)).

(** A source storage, as handed out by a finder.  [src_path] and
    [src_modified_time] answer [None] where the backend raises;
    [src_stat_mtime] is the time stamp of the local file itself, which
    [copy2] carries over. *)
Record SourceStorage := mkSourceStorage {
  src_path : string → option string;
  src_modified_time : string → option Z;
  src_open : string → string;
  src_stat_mtime : string → Z;
}.

(** A discovered file: [(source, prefix, storage)]. *)
Definition Discovered : Type := string * option string * SourceStorage.

Record Finder := mkFinder {
  finder_list : list string → list Discovered;
}.

(** ** Options, environment and the command object *)

Record Options := mkOptions {
  interactive : bool;
  ignore_patterns : list string;
  dry_run : bool;
  link : bool;
  use_default_ignore_patterns : bool;
  verbosity : Z;
}.

Record Env := mkEnv {
  sys_platform : string;
  settings_ROOT : string;
  raw_input : string;
  get_finders : list Finder;
}.

Record Command := mkCommand {
  destination_storage : Storage;
  destination_local : bool;
  copied_files : gset string;
  symlinked_files : gset string;
  unmodified_files : gset string;
  _verbosity : Z;
  _dry_run : bool;
  _symlink : bool;
  stdout : list string;
}.

Definition M (A : Type) : Type := Command → outcome A * Command.

Definition ret {A} (a : A) : M A := λ self, (Return a, self).

Definition bind {A B} (m : M A) (k : A → M B) : M B :=
  λ self,
    match m self with
    | (Return a, self') => k a self'
    | (Raise e, self') => (Raise e, self')
    end.

Definition raise {A} (e : Exception) : M A := λ self, (Raise e, self).

Definition get : M Command := λ self, (Return self, self).

Definition modify (f : Command → Command) : M unit :=
  λ self, (Return tt, f self).

Declare Scope command_scope.
Delimit Scope command_scope with command.
Notation "x <- c ;; k" := (bind c (λ x, k))
  (at level 100, c at next level, right associativity) : command_scope.
Notation "c ;; k" := (bind c (λ _, k))
  (at level 100, k at level 200, right associativity) : command_scope.

Definition when (b : bool) (m : M unit) : M unit :=
  if b then m else ret tt.

Fixpoint for_each {A} (l : list A) (body : A → M unit) : M unit :=
  match l with
  | [] => ret tt
  | x :: l' => bind (body x) (λ _, for_each l' body)
  end.

(** Assignments to the fields of [self]. *)
Definition with_stdout (f : list string → list string) (self : Command)
    : Command :=
  mkCommand (destination_storage self) (destination_local self)
    (copied_files self) (symlinked_files self) (unmodified_files self)
    (_verbosity self) (_dry_run self) (_symlink self) (f (stdout self)).

Definition with_storage (f : Storage → Storage) (self : Command) : Command :=
  mkCommand (f (destination_storage self)) (destination_local self)
    (copied_files self) (symlinked_files self) (unmodified_files self)
    (_verbosity self) (_dry_run self) (_symlink self) (stdout self).

Definition with_copied (f : gset string → gset string) (self : Command)
    : Command :=
  mkCommand (destination_storage self) (destination_local self)
    (f (copied_files self)) (symlinked_files self) (unmodified_files self)
    (_verbosity self) (_dry_run self) (_symlink self) (stdout self).

Definition with_symlinked (f : gset string → gset string) (self : Command)
    : Command :=
  mkCommand (destination_storage self) (destination_local self)
    (copied_files self) (f (symlinked_files self)) (unmodified_files self)
    (_verbosity self) (_dry_run self) (_symlink self) (stdout self).

Definition with_unmodified (f : gset string → gset string) (self : Command)
    : Command :=
  mkCommand (destination_storage self) (destination_local self)
    (copied_files self) (symlinked_files self) (f (unmodified_files self))
    (_verbosity self) (_dry_run self) (_symlink self) (stdout self).

Definition with_symlink (b : bool) (self : Command) : Command :=
  mkCommand (destination_storage self) (destination_local self)
    (copied_files self) (symlinked_files self) (unmodified_files self)
    (_verbosity self) (_dry_run self) b (stdout self).

(** [self.stdout.write(msg)] *)
Definition write (msg : string) : M unit :=
  modify (with_stdout (λ out, (out ++ [msg])%list)).

Definition update_storage (f : Storage → Storage) : M unit :=
  modify (with_storage f).

(** [self.copied_files.add(destination)] and its two siblings. *)
Definition add_copied (destination : string) : M unit :=
  modify (with_copied (union {[destination]})).

Definition add_symlinked (destination : string) : M unit :=
  modify (with_symlinked (union {[destination]})).

Definition add_unmodified (destination : string) : M unit :=
  modify (with_unmodified (union {[destination]})).

Definition set_symlink (b : bool) : M unit := modify (with_symlink b).

(** [self.destination_storage.path(name)], raising where the backend does. *)
Definition destination_path_of (name : string) : M string :=
  λ self,
    match storage_path (destination_storage self) name with
    | Some p => (Return p, self)
    | None => (Raise NotImplementedError, self)
    end.

(** ** The command *)

Inductive Status := STATUS_COPY | STATUS_SKIP.

Inductive Reason :=
| REASON_ALREADY_COPIED
| REASON_ALREADY_LINKED
| REASON_NOT_MODIFIED.

Definition REASONS (r : Reason) : string :=
  match r with
  | REASON_ALREADY_COPIED => "already copied earlier"
  | REASON_ALREADY_LINKED => "already linked earlier"
  | REASON_NOT_MODIFIED => "not modified"
  end.

#[global] Instance Exception_eq_dec : EqDecision Exception.
Proof. solve_decision. Defined.
#[global] Instance Status_eq_dec : EqDecision Status.
Proof. solve_decision. Defined.
#[global] Instance Reason_eq_dec : EqDecision Reason.
Proof. solve_decision. Defined.

Definition newline : string := String (Ascii.ascii_of_nat 10) EmptyString.
Definition dquote : string := String (Ascii.ascii_of_nat 34) EmptyString.

(** [Command.__init__]: the locality of the destination is probed once,
    with [path('')].  The fields that Python creates later, in
    [handle_noargs] and [copy_file], start with a value of no consequence:
    each is assigned before it is read. *)
Definition init (st : Storage) : Command :=
  {| destination_storage := st;
     destination_local :=
       match storage_path st EmptyString with
       | None => false
       | Some _ => true
       end;
     copied_files := ∅; symlinked_files := ∅; unmodified_files := ∅;
     _verbosity := 1; _dry_run := false; _symlink := false;
     stdout := [] |}.

(** [Command.file_has_changed] *)
Definition file_has_changed (self : Command) (source_storage : SourceStorage)
    (source destination : string) : bool :=
  let source_last_modified :=
    match src_modified_time source_storage source with
    | Some t => t
    | None => 0
    end in
  match storage_modified_time (destination_storage self) destination with
  | None => true
  | Some destination_last_modified =>
      bool_decide (source_last_modified > destination_last_modified)
  end.

(** [Command.file_status] *)
Definition file_status (source_storage : SourceStorage)
    (source destination : string) : M (Status * option Reason) :=
  λ self,
    if decide (destination ∈ copied_files self) then
      (Return (STATUS_SKIP, Some REASON_ALREADY_COPIED), self)
    else if decide (destination ∈ symlinked_files self) then
      (Return (STATUS_SKIP, Some REASON_ALREADY_LINKED), self)
    else if storage_exists (destination_storage self) destination then
      if file_has_changed self source_storage source destination then
        match storage_path (destination_storage self) destination with
        | None => (Raise NotImplementedError, self)
        | Some _ =>
            let destination_is_link :=
              os_path_islink (destination_storage self) destination in
            if negb (_symlink self) && negb destination_is_link then
              (Return (STATUS_SKIP, Some REASON_NOT_MODIFIED), self)
            else (Return (STATUS_COPY, None), self)
        end
      else (Return (STATUS_COPY, None), self)
    else (Return (STATUS_COPY, None), self).

(** The destination name of a discovered file ([if prefix: ...]). *)
Definition destination_of (source : string) (prefix : option string)
    : string :=
  match prefix with
  | Some p =>
      if bool_decide (p = EmptyString) then source else p +:+ "/" +:+ source
  | None => source
  end.

Local Open Scope command_scope.

(** [Command.copy_file].  [REASONS[detail]] is looked up for a skipped file
    only, where [file_status] always gives a reason. *)
Definition copy_file (source : string) (prefix : option string)
    (source_storage : SourceStorage) (options : Options) : M bool :=
  source_path <-
    match src_path source_storage source with
    | Some p => ret p
    | None => raise NotImplementedError
    end ;;
  let destination := destination_of source prefix in
  set_symlink (link options) ;;
  sd <- file_status source_storage source destination ;;
  self <- get ;;
  match sd with
  | (STATUS_SKIP, detail) =>
      when (bool_decide (_verbosity self >= 2))
        (write ("Skipping " +:+ dquote +:+ destination +:+ dquote +:+ " ("
                +:+ from_option REASONS EmptyString detail +:+ ")"
                +:+ newline)) ;;
      when (bool_decide (detail = Some REASON_NOT_MODIFIED))
        (add_unmodified destination) ;;
      ret false
  | (STATUS_COPY, _) =>
      (if _dry_run self then
         when (bool_decide (_verbosity self >= 2))
           (write ("Pretending to delete '" +:+ destination +:+ "'"
                   +:+ newline))
       else
         when (bool_decide (_verbosity self >= 2))
           (write ("Deleting '" +:+ destination +:+ "'" +:+ newline)) ;;
         update_storage (storage_delete destination)) ;;
      (if _symlink self then
         destination_path <- destination_path_of destination ;;
         (if _dry_run self then
            when (bool_decide (_verbosity self >= 1))
              (write ("Pretending to symlink '" +:+ source_path +:+ "' to '"
                      +:+ destination_path +:+ "'" +:+ newline))
          else
            when (bool_decide (_verbosity self >= 1))
              (write ("Symlinking '" +:+ source_path +:+ "' to '"
                      +:+ destination_path +:+ "'" +:+ newline)) ;;
            update_storage
              (os_symlink source_path (src_stat_mtime source_storage source)
                 destination)) ;;
         add_symlinked destination
       else
         (if _dry_run self then
            when (bool_decide (_verbosity self >= 1))
              (write ("Pretending to copy '" +:+ source_path +:+ "' to '"
                      +:+ destination +:+ "'" +:+ newline))
          else if destination_local self then
            destination_path <- destination_path_of destination ;;
            update_storage
              (shutil_copy2 (src_open source_storage source)
                 (src_stat_mtime source_storage source) destination) ;;
            when (bool_decide (_verbosity self >= 1))
              (write ("Copying '" +:+ source_path +:+ "' to '"
                      +:+ destination_path +:+ "'" +:+ newline))
          else
            update_storage
              (storage_save destination (src_open source_storage source)) ;;
            when (bool_decide (_verbosity self >= 1))
              (write ("Copying " +:+ source_path +:+ " to "
                      +:+ destination +:+ newline))) ;;
         add_copied destination) ;;
      ret true
  end.

(** The body of the loop of [handle_noargs] over the files of a finder. *)
Definition copy_each (options : Options) (f : Discovered) : M unit :=
  let '(source, prefix, storage) := f in
  copy_file source prefix storage options ;; ret tt.

(** The assignments at the head of [handle_noargs]. *)
Definition reset_run (options : Options) : M unit :=
  modify (λ self,
    mkCommand (destination_storage self) (destination_local self)
      ∅ ∅ ∅ (verbosity options) (dry_run options)
      (_symlink self) (stdout self)).

(** [Command.handle_noargs].  [list(set(ignore_patterns))] is the list of
    elements of the set of patterns; the reply of the operator to the
    prompt is [raw_input env]. *)
Definition handle_noargs (env : Env) (options : Options) : M unit :=
  let symlink := link options in
  let ignore_patterns :=
    if use_default_ignore_patterns options
    then (ignore_patterns options ++ ["CVS"; ".*"; "*~"])%list
    else ignore_patterns options in
  let ignore_patterns :=
    elements (list_to_set ignore_patterns : gset string) in
  reset_run options ;;
  self <- get ;;
  when symlink
    (when (bool_decide (sys_platform env = "win32"))
       (raise (CommandError ("Symlinking is not supported by this "
                             +:+ "platform (" +:+ sys_platform env
                             +:+ ")."))) ;;
     when (negb (destination_local self))
       (raise (CommandError "Can't symlink to a remote destination."))) ;;
  when (interactive options)
    (let confirm := raw_input env in
     when (bool_decide (confirm ≠ "yes"))
       (raise (CommandError "Static files build cancelled."))) ;;
  for_each (get_finders env) (λ finder,
    for_each (finder_list finder ignore_patterns) (copy_each options)) ;;
  self <- get ;;
  let actual_count :=
    (size (copied_files self) + size (symlinked_files self))%nat in
  let unmodified_count := size (unmodified_files self) in
  when (bool_decide (_verbosity self >= 1))
    (write (newline +:+ pretty actual_count +:+ " static file"
            +:+ (if bool_decide (actual_count ≠ 1%nat) then "s"
                 else EmptyString)
            +:+ " " +:+ (if symlink then "symlinked" else "copied")
            +:+ " to '" +:+ settings_ROOT env +:+ "'"
            +:+ (if bool_decide (unmodified_count ≠ 0%nat)
                 then " (" +:+ pretty unmodified_count +:+ " unmodified)"
                 else EmptyString)
            +:+ "." +:+ newline)).

Local Close Scope command_scope.

(** ** Runs and concrete inputs *)

Definition local_storage (fs : gmap string Entry) : Storage :=
  mkStorage fs (Some "/srv/static") true 100.

Definition plain_source (stamp : Z) (content : string) : SourceStorage :=
  mkSourceStorage (λ name, Some ("/app/static/" +:+ name))
    (λ _, Some stamp) (λ _, content) (λ _, stamp).

Definition one_finder (fs : list Discovered) : Finder :=
  mkFinder (λ _, fs).

Definition quiet (dry symlink : bool) : Options :=
  mkOptions false [] dry symlink true 2.

Definition posix (fs : list Finder) : Env :=
  mkEnv "linux2" "/srv/static" "yes" fs.

(** A run of the command on a destination storage: the command object is
    built by [init], then [handle_noargs] is called. *)
Definition run (env : Env) (options : Options) (st : Storage)
    : outcome unit * Command :=
  handle_noargs env options (init st).

Definition set_dry_run (b : bool) (o : Options) : Options :=
  mkOptions (interactive o) (ignore_patterns o) b (link o)
    (use_default_ignore_patterns o) (verbosity o).

(** The patterns [handle_noargs] hands to the finders. *)
Definition collected_patterns (options : Options) : list string :=
  elements
    (list_to_set
       (if use_default_ignore_patterns options
        then (ignore_patterns options ++ ["CVS"; ".*"; "*~"])%list
        else ignore_patterns options) : gset string).

(** ** Destinations and finders used as concrete inputs *)

Definition remote_storage (fs : gmap string Entry) : Storage :=
  mkStorage fs None true 100.

Definition pathless_source : SourceStorage :=
  mkSourceStorage (λ _, None) (λ _, Some 5) (λ _, "body{}") (λ _, 5).

(** [a.css] is in the destination already, last written at time 3. *)
Definition stale_css : Storage :=
  local_storage {[ "a.css" := mkEntry false 3 "old" ]}.

(** [a.css] is in the destination already, last written at time 5. *)
Definition fresh_css : Storage :=
  local_storage {[ "a.css" := mkEntry false 5 "old" ]}.

(** The same, on a storage that cannot report time stamps. *)
Definition timeless_css : Storage :=
  mkStorage {[ "a.css" := mkEntry false 5 "old" ]} (Some "/srv/static")
    false 100.

(** The same as [stale_css], on a storage without local paths. *)
Definition remote_css : Storage :=
  remote_storage {[ "a.css" := mkEntry false 3 "old" ]}.

Definition newer_css : Discovered := ("a.css", None, plain_source 5 "one").
Definition older_css : Discovered := ("a.css", None, plain_source 1 "two").

(** Two finders that resolve to one destination path. *)
Definition two_finders : Env :=
  posix [one_finder [newer_css]; one_finder [older_css]].

(** ** Vocabulary of the statements *)

(** [m] keeps [I], however it ends. *)
Definition preserves {A} (I : Command → Prop) (m : M A) : Prop :=
  ∀ self, I self → I (snd (m self)).

(** [wp m Q self]: running [m] from [self] ends, normally or by an
    exception, in an outcome and a state that satisfy [Q]. *)
Definition wp {A} (m : M A) (Q : outcome A → Command → Prop)
    (self : Command) : Prop :=
  Q (fst (m self)) (snd (m self)).

(** [m] ends with an exception from every state. *)
Definition fails {A} (m : M A) : Prop :=
  ∀ self, ∃ e, fst (m self) = Raise e.

(** A path is claimed by at most one of the two writers. *)
Definition claims_disjoint (self : Command) : Prop :=
  copied_files self ## symlinked_files self.

(** [destination] has been claimed by a writer of this run, in the set the
    mode of the run fills. *)
Definition claimed (options : Options) (destination : string)
    (self : Command) : Prop :=
  if link options
  then destination ∈ symlinked_files self ∧
       destination ∉ copied_files self
  else destination ∈ copied_files self.

(** The state [d] of a dry run and the state [r] of the real run over the
    same files, both started on the storage [st0]: the dry run has not
    touched the storage, the two have recorded the same paths, and the
    storage of the real run differs from [st0] on claimed paths only. *)
Record sim (st0 : Storage) (d r : Command) : Prop := mkSim {
  sim_storage : destination_storage d = st0;
  sim_dry : _dry_run d = true;
  sim_real : _dry_run r = false;
  sim_copied : copied_files d = copied_files r;
  sim_symlinked : symlinked_files d = symlinked_files r;
  sim_unmodified : unmodified_files d = unmodified_files r;
  sim_local : destination_local d = destination_local r;
  sim_local_path :
    destination_local r = true →
    is_Some (location (destination_storage r));
  sim_location : location st0 = location (destination_storage r);
  sim_mtime :
    has_modified_time st0 = has_modified_time (destination_storage r);
  sim_files :
    ∀ n, n ∉ copied_files r → n ∉ symlinked_files r →
         files st0 !! n = files (destination_storage r) !! n;
}.

Definition agree (st0 : Storage) (d r : Command) : Prop :=
  destination_storage d = st0 ∧
  copied_files d = copied_files r ∧
  symlinked_files d = symlinked_files r ∧
  unmodified_files d = unmodified_files r.

(** The dry run [m1] from [d] and the real run [m2] from [r] end with the
    same outcome and the same three sets, the dry run has left the
    destination storage alone, and after a normal end the two states are
    still related. *)
Definition rel_at {A} (st0 : Storage) (m1 m2 : M A) (d r : Command)
    : Prop :=
  wp m1 (λ od d',
    wp m2 (λ or r',
      od = or ∧ agree st0 d' r' ∧
      (∀ a, od = Return a → sim st0 d' r')) r) d.

(** ** The settings module ([staticfiles/settings.py])

    The Django settings object is the finite map of its attributes; a
    value is a string or a tuple. *)

Inductive Value :=
| Str (s : string)
| Tuple (items : list Value).

(** [setdefaultattr(obj, attr, default)]: the value returned, and the
    object afterwards. *)
Definition setdefaultattr (obj : gmap string Value) (attr : string)
    (default : Value) : Value * gmap string Value :=
  match obj !! attr with
  | Some v => (v, obj)
  | None => (default, <[attr := default]> obj)
  end.

(** The constants of the module. *)
Record Settings := mkSettings {
  ROOT : Value;
  URL : Value;
  DIRS : Value;
  STORAGE : Value;
  FINDERS : Value;
}.

Definition default_FINDERS : Value :=
  Tuple [Str "staticfiles.finders.FileSystemFinder";
         Str "staticfiles.finders.AppDirectoriesFinder"].

(** The body of the module, run on import: five calls of
    [setdefaultattr] on the same settings object, in this order. *)
Definition load_settings (settings : gmap string Value)
    : Settings * gmap string Value :=
  let '(root, settings) :=
    setdefaultattr settings "STATICFILES_ROOT" (Str EmptyString) in
  let '(url, settings) :=
    setdefaultattr settings "STATICFILES_URL" (Str "/static") in
  let '(dirs, settings) :=
    setdefaultattr settings "STATICFILES_DIRS" (Tuple []) in
  let '(storage, settings) :=
    setdefaultattr settings "STATICFILES_STORAGE"
      (Str "staticfiles.storage.StaticFilesStorage") in
  let '(finders, settings) :=
    setdefaultattr settings "STATICFILES_FINDERS" default_FINDERS in
  (mkSettings root url dirs storage finders, settings).

(** [d] is the destination path of a file that a finder of the run
    yields. *)
Definition is_discovered (env : Env) (options : Options) (d : string)
    : Prop :=
  ∃ finder source prefix ss,
    finder ∈ get_finders env ∧
    (source, prefix, ss) ∈ finder_list finder (collected_patterns options) ∧
    destination_of source prefix = d.

(** The paths the run has recorded, in any of its three sets. *)
Definition recorded (self : Command) : gset string :=
  copied_files self ∪ symlinked_files self ∪ unmodified_files self.

(** In a real run, every recorded path has an entry in the destination
    storage. *)
Definition all_recorded_exist (self : Command) : Prop :=
  _dry_run self = false ∧
  ∀ d, d ∈ recorded self →
       is_Some (files (destination_storage self) !! d).

(** The names of the destination storage that no discovered file resolves
    to are as they were in [st0], and so is what the storage can do. *)
Definition others_untouched (env : Env) (options : Options) (st0 : Storage)
    (self : Command) : Prop :=
  location (destination_storage self) = location st0 ∧
  has_modified_time (destination_storage self) = has_modified_time st0 ∧
  now (destination_storage self) = now st0 ∧
  ∀ name, ¬ is_discovered env options name →
          files (destination_storage self) !! name = files st0 !! name.

(** A destination with a file that no finder yields. *)
Definition css_and_notes : Storage :=
  local_storage {[ "a.css" := mkEntry false 3 "old";
                   "notes.txt" := mkEntry false 2 "keep" ]}.

(** The finder that yields, whatever the patterns, what [finder] yields on
    the patterns of the run. *)
Definition finder_at (options : Options) (finder : Finder) : Finder :=
  one_finder (finder_list finder (collected_patterns options)).


(** In a real run, every recorded path holds an entry of the kind of the
    mode: a link in Symlink mode, a regular file in Copy mode. *)
Definition all_recorded_of_mode (options : Options) (self : Command)
    : Prop :=
  _dry_run self = false ∧
  ∀ d, d ∈ recorded self →
       ∃ e, files (destination_storage self) !! d = Some e ∧
            is_link e = link options.

(** [a.css] is in the destination already, as a symbolic link. *)
Definition linked_css : Storage :=
  local_storage {[ "a.css" := mkEntry true 5 "/app/static/a.css" ]}.

(** ** Basic facts about the monad and the per-file decision *)

(** What [file_status] looks at: the three sets, the mode, and the
    destination storage at [destination] only. *)
Lemma file_status_agree ss source destination (c1 c2 : Command) :
  copied_files c1 = copied_files c2 →
  symlinked_files c1 = symlinked_files c2 →
  _symlink c1 = _symlink c2 →
  location (destination_storage c1) = location (destination_storage c2) →
  has_modified_time (destination_storage c1)
    = has_modified_time (destination_storage c2) →
  (destination ∉ copied_files c2 → destination ∉ symlinked_files c2 →
   files (destination_storage c1) !! destination
     = files (destination_storage c2) !! destination) →
  fst (file_status ss source destination c1)
    = fst (file_status ss source destination c2).
Proof.
  intros Hc Hs Hm Hl Ht Hf. unfold file_status.
  rewrite Hc, Hs.
  destruct (decide (destination ∈ copied_files c2)); [reflexivity|].
  destruct (decide (destination ∈ symlinked_files c2)); [reflexivity|].
  specialize (Hf n n0).
  unfold storage_exists, file_has_changed, storage_modified_time,
    storage_path, os_path_islink.
  rewrite Hf, Hl, Ht, Hm.
  repeat case_match; reflexivity.
Qed.

Lemma file_status_inv ss source destination self o self' :
  file_status ss source destination self = (o, self') →
  self' = self ∧
  match o with
  | Return (STATUS_SKIP, Some REASON_ALREADY_COPIED) =>
      destination ∈ copied_files self
  | Return (STATUS_SKIP, Some REASON_ALREADY_LINKED) =>
      (destination ∉ copied_files self) ∧
      destination ∈ symlinked_files self
  | Return (STATUS_SKIP, Some REASON_NOT_MODIFIED) =>
      (destination ∉ copied_files self) ∧
      (destination ∉ symlinked_files self) ∧
      storage_exists (destination_storage self) destination = true ∧
      file_has_changed self ss source destination = true ∧
      is_Some (storage_path (destination_storage self) destination) ∧
      _symlink self = false ∧
      os_path_islink (destination_storage self) destination = false
  | Return (STATUS_SKIP, None) => False
  | Return (STATUS_COPY, detail) =>
      detail = None ∧
      (destination ∉ copied_files self) ∧
      (destination ∉ symlinked_files self)
  | Raise e =>
      e = NotImplementedError ∧
      (destination ∉ copied_files self) ∧
      (destination ∉ symlinked_files self) ∧
      storage_path (destination_storage self) destination = None
  end.
Proof.
  unfold file_status. intros H.
  repeat case_match; simplify_eq; split; try reflexivity;
    repeat match goal with
           | H : _ && _ = true |- _ => apply andb_prop in H; destruct H
           | H : negb _ = true |- _ => apply negb_true_iff in H
           end;
    auto 10.
Qed.

(** ** Invariants of the run state *)

Lemma preserves_bind {A B} I (m : M A) (k : A → M B) :
  preserves I m → (∀ a, preserves I (k a)) → preserves I (bind m k).
Proof.
  intros Hm Hk self HI. unfold bind.
  specialize (Hm self HI). destruct (m self) as [[a|e] self1]; simpl in *.
  - by apply Hk.
  - done.
Qed.

Lemma preserves_ret {A} I (a : A) : preserves I (ret a).
Proof. by intros self. Qed.

Lemma preserves_raise {A} I e : preserves I (@raise A e).
Proof. by intros self. Qed.

Lemma preserves_when I b m : preserves I m → preserves I (when b m).
Proof. destruct b; [done|]. intros _. apply preserves_ret. Qed.

Lemma preserves_for_each {A} I (l : list A) body :
  (∀ x, preserves I (body x)) → preserves I (for_each l body).
Proof.
  intros Hb. induction l as [|x l IH]; simpl.
  - apply preserves_ret.
  - apply preserves_bind; auto.
Qed.

Lemma wp_ret {A} (a : A) Q self : Q (Return a) self → wp (ret a) Q self.
Proof. done. Qed.

Lemma wp_raise {A} e (Q : outcome A → Command → Prop) self :
  Q (Raise e) self → wp (raise e) Q self.
Proof. done. Qed.

Lemma wp_get Q self : Q (Return self) self → wp get Q self.
Proof. done. Qed.

Lemma wp_modify f Q self : Q (Return tt) (f self) → wp (modify f) Q self.
Proof. done. Qed.

Lemma wp_bind {A B} (m : M A) (k : A → M B) Q self :
  wp m (λ o self',
          match o with
          | Return a => wp (k a) Q self'
          | Raise e => Q (Raise e) self'
          end) self →
  wp (bind m k) Q self.
Proof.
  unfold wp, bind. by destruct (m self) as [[a|e] self'].
Qed.

(** A message is written or not; either way only [stdout] moves. *)
Lemma wp_when_write (b : bool) msg Q self :
  Q (Return tt)
    (with_stdout (λ out, if b then (out ++ [msg])%list else out) self) →
  wp (when b (write msg)) Q self.
Proof.
  destruct b; unfold wp, when, write, modify, ret; simpl; [done|].
  by destruct self.
Qed.

Lemma wp_file_status ss source destination Q self :
  (∀ o, file_status ss source destination self = (o, self) → Q o self) →
  wp (file_status ss source destination) Q self.
Proof.
  intros H. unfold wp.
  destruct (file_status ss source destination self) as [o self'] eqn:E.
  destruct (file_status_inv _ _ _ _ _ _ E) as [-> _]. by apply H.
Qed.

Lemma wp_destination_path_of name Q self :
  match storage_path (destination_storage self) name with
  | Some p => Q (Return p) self
  | None => Q (Raise NotImplementedError) self
  end →
  wp (destination_path_of name) Q self.
Proof.
  unfold wp, destination_path_of.
  by destruct (storage_path (destination_storage self) name).
Qed.

Lemma wp_when (b : bool) m Q self :
  (if b then wp m Q self else Q (Return tt) self) → wp (when b m) Q self.
Proof. by destruct b. Qed.

(** Case analysis on a test of the code, unless a hypothesis settles it. *)
Ltac case_known x :=
  first [ match goal with H : x = _ |- _ => rewrite H end
        | destruct x eqn:? ].

Ltac wp_step :=
  lazymatch goal with
  | |- wp (bind _ _) _ _ => apply wp_bind
  | |- wp (when _ (write _)) _ _ => apply wp_when_write
  | |- wp (when _ _) _ _ => apply wp_when
  | |- wp (write _) _ _ => apply wp_modify
  | |- wp (update_storage _) _ _ => apply wp_modify
  | |- wp (add_copied _) _ _ => apply wp_modify
  | |- wp (add_symlinked _) _ _ => apply wp_modify
  | |- wp (add_unmodified _) _ _ => apply wp_modify
  | |- wp (set_symlink _) _ _ => apply wp_modify
  | |- wp (reset_run _) _ _ => apply wp_modify
  | |- wp (modify _) _ _ => apply wp_modify
  | |- wp get _ _ => apply wp_get
  | |- wp (ret _) _ _ => apply wp_ret
  | |- wp (raise _) _ _ => apply wp_raise
  | |- wp (destination_path_of _) _ _ => apply wp_destination_path_of
  | |- wp (file_status _ _ _) _ _ =>
      let o := fresh "o" in
      let E := fresh "E" in
      let F := fresh "F" in
      apply wp_file_status; intros o E;
      destruct (file_status_inv _ _ _ _ _ _ E) as [_ F];
      repeat match goal with
             | H : context [file_status _ _ _ _] |- _ =>
                 tryif constr_eq H E then fail
                 else (rewrite E in H; cbn [fst snd] in H)
             end;
      clear E;
      destruct o as [[[] [[]|]]|?]; simpl in F; destruct_and? F;
      try done; simplify_eq
  | |- wp (match ?x with _ => _ end) _ _ => case_known x
  | |- match ?x with _ => _ end => case_known x
  end;
  cbv beta iota;
  cbn [_dry_run _symlink _verbosity destination_local destination_storage
       copied_files symlinked_files unmodified_files stdout
       with_stdout with_storage with_copied with_symlinked with_unmodified
       with_symlink] in *.

Ltac wp_run := repeat wp_step.

Lemma storage_path_with_files f st name :
  storage_path (with_files f st) name = storage_path st name.
Proof. reflexivity. Qed.

Lemma copy_file_step source prefix ss options self :
  let destination := destination_of source prefix in
  wp (copy_file source prefix ss options)
    (λ _ self',
       (claims_disjoint self → claims_disjoint self') ∧
       copied_files self ⊆ copied_files self' ∧
       symlinked_files self ⊆ symlinked_files self' ∧
       unmodified_files self ⊆ unmodified_files self' ∧
       (∀ d, d ∈ unmodified_files self' → d ∉ unmodified_files self →
             d = destination ∧ (d ∉ copied_files self') ∧
             (d ∉ symlinked_files self'))) self.
Proof.
  unfold claims_disjoint, copy_file. wp_run.
  all: set_solver.
Qed.

Lemma preserves_wp {A} I (m : M A) self :
  preserves I m → I self → wp m (λ _ self', I self') self.
Proof. intros Hm HI. by apply Hm. Qed.

Lemma preserves_get I : preserves I get.
Proof. by intros self. Qed.

Lemma preserves_modify I f :
  (∀ self, I self → I (f self)) → preserves I (modify f).
Proof. intros Hf self. apply Hf. Qed.

Lemma copy_file_disjoint source prefix ss options :
  preserves claims_disjoint (copy_file source prefix ss options).
Proof.
  intros self HI.
  by destruct (copy_file_step source prefix ss options self) as [H _];
    apply H.
Qed.

Ltac preserves_run :=
  repeat first
    [ apply copy_file_disjoint
    | apply preserves_ret | apply preserves_raise | apply preserves_get
    | apply preserves_when | apply preserves_for_each; intros ?
    | apply preserves_bind; [|intros ?]
    | apply preserves_modify; intros ? ?; assumption
    | match goal with
      | |- preserves _ (let '(_, _) := ?x in _) => destruct x as [[? ?] ?]
      end ].

(** Whatever the state [handle_noargs] is entered in, it leaves (normally
    or by an exception) with no path in both [copied_files] and
    [symlinked_files]. *)
Lemma handle_noargs_disjoint env options self :
  claims_disjoint (snd (handle_noargs env options self)).
Proof.
  change (wp (handle_noargs env options)
            (λ _ self', claims_disjoint self') self).
  unfold handle_noargs. do 2 wp_step.
  apply preserves_wp; [|unfold claims_disjoint; simpl; set_solver].
  unfold write, copy_each. preserves_run.
Qed.

(** C4, as stated, fails: in Copy mode over [stale_css], the first finder's
    [a.css] is skipped as not modified and recorded in [unmodified_files];
    the second finder's [a.css] is then copied, so the path ends the run in
    both [unmodified_files] and [copied_files]. *)
Lemma C4_unmodified_and_copied :
  let final := snd (run two_finders (quiet false false) stale_css) in
  ¬ (∀ d, d ∈ unmodified_files final →
          d ∉ copied_files final ∪ symlinked_files final).
Proof.
  intros final H. apply (H "a.css").
  - refine (bool_decide_unpack _ _). by vm_compute.
  - refine (bool_decide_unpack _ _). by vm_compute.
Qed.

(** C4 (amended): every per-file decision keeps [copied_files] and
    [symlinked_files] disjoint, and a path that the decision adds to
    [unmodified_files] is at that moment in neither of them; a whole run
    ends with [copied_files] and [symlinked_files] disjoint. *)
Theorem C4_claims_disjoint env options self source prefix ss :
  claims_disjoint self →
  let self' := snd (copy_file source prefix ss options self) in
  claims_disjoint self' ∧
  (∀ d, d ∈ unmodified_files self' → d ∉ unmodified_files self →
        (d ∉ copied_files self') ∧ (d ∉ symlinked_files self')) ∧
  claims_disjoint (snd (handle_noargs env options self)).
Proof.
  intros HI self'.
  destruct (copy_file_step source prefix ss options self)
    as (Hd & _ & _ & _ & Hu).
  split; [by apply Hd|]. split; [|apply handle_noargs_disjoint].
  intros d Hin Hnot. by destruct (Hu d Hin Hnot) as (_ & ? & ?).
Qed.

Lemma C4_claims_disjoint_witness :
  claims_disjoint (init stale_css) ∧
  let self' :=
    snd (copy_file "a.css" None (plain_source 5 "one") (quiet false false)
           (init stale_css)) in
  claims_disjoint self' ∧
  (∀ d, d ∈ unmodified_files self' →
        d ∉ unmodified_files (init stale_css) →
        (d ∉ copied_files self') ∧ (d ∉ symlinked_files self')) ∧
  claims_disjoint
    (snd (handle_noargs two_finders (quiet false false) (init stale_css))).
Proof.
  assert (H : claims_disjoint (init stale_css)).
  { unfold claims_disjoint. simpl. apply disjoint_empty_l. }
  split; [exact H|].
  exact (C4_claims_disjoint two_finders (quiet false false) (init stale_css)
           "a.css" None (plain_source 5 "one") H).
Defined.

(** ** First writer wins *)

Lemma copy_file_claims source prefix ss options self :
  wp (copy_file source prefix ss options)
    (λ o self',
       o = Return true → claimed options (destination_of source prefix) self')
    self.
Proof.
  unfold claimed, copy_file. wp_run; intros; simplify_eq; set_solver.
Qed.

Lemma copy_file_keeps_claim d source prefix ss options :
  preserves (claimed options d) (copy_file source prefix ss options).
Proof.
  intros self.
  change (wp (copy_file source prefix ss options)
            (λ _ self', claimed options d self → claimed options d self')
            self).
  unfold claimed, copy_file. wp_run; destruct (link options); set_solver.
Qed.

Lemma copy_each_keeps_claim d options f :
  preserves (claimed options d) (copy_each options f).
Proof.
  destruct f as [[source prefix] ss]. unfold copy_each.
  apply preserves_bind; [apply copy_file_keeps_claim|].
  intros _. apply preserves_ret.
Qed.

Lemma copy_file_skips_claimed source prefix ss options self :
  claimed options (destination_of source prefix) self →
  is_Some (src_path ss source) →
  wp (copy_file source prefix ss options)
    (λ o self',
       o = Return false ∧
       destination_storage self' = destination_storage self ∧
       copied_files self' = copied_files self ∧
       symlinked_files self' = symlinked_files self ∧
       unmodified_files self' = unmodified_files self) self.
Proof.
  unfold claimed, copy_file. intros Hc [p Hp]. rewrite Hp.
  wp_run; destruct (link options); try done; set_solver.
Qed.

Lemma file_status_claimed source prefix ss options self :
  claimed options (destination_of source prefix) self →
  fst (file_status ss source (destination_of source prefix)
         (with_symlink (link options) self))
  = Return (STATUS_SKIP,
            Some (if link options then REASON_ALREADY_LINKED
                  else REASON_ALREADY_COPIED)).
Proof.
  unfold claimed, file_status. simpl.
  destruct (link options); intros H; repeat case_decide; set_solver.
Qed.

(** C6, as stated, fails: over [stale_css] in Copy mode the earlier finder's
    [a.css] is not written (it is skipped as not modified), and the later
    finder's [a.css] is not skipped as already copied: it is written, and
    the destination ends the run with the later finder's content. *)
Lemma C6_later_finder_writes :
  let options := quiet false false in
  let self1 :=
    snd (copy_file "a.css" None (plain_source 5 "one") options
           (init stale_css)) in
  fst (copy_file "a.css" None (plain_source 5 "one") options
         (init stale_css)) = Return false ∧
  fst (file_status (plain_source 1 "two") "a.css" "a.css" self1)
    = Return (STATUS_COPY, None) ∧
  fst (copy_file "a.css" None (plain_source 1 "two") options self1)
    = Return true ∧
  files (destination_storage (snd (run two_finders options stale_css)))
    !! "a.css" = Some (mkEntry false 1 "two").
Proof. repeat split; by vm_compute. Qed.

(** C6 (amended): once a file has been written for a destination path
    ([copy_file] returned [True]), every later file of the run that resolves
    to the same path and whose source storage has a local path is skipped,
    with reason already-copied in Copy mode and already-linked in Symlink
    mode, and leaves the destination storage and the three sets as they
    were. *)
Theorem C6_first_writer_wins options self self1 self2
    source1 prefix1 ss1 (between : list Discovered) source2 prefix2 ss2 :
  destination_of source1 prefix1 = destination_of source2 prefix2 →
  copy_file source1 prefix1 ss1 options self = (Return true, self1) →
  for_each between (copy_each options) self1 = (Return tt, self2) →
  is_Some (src_path ss2 source2) →
  let later := copy_file source2 prefix2 ss2 options self2 in
  fst (file_status ss2 source2 (destination_of source2 prefix2)
         (with_symlink (link options) self2))
  = Return (STATUS_SKIP,
            Some (if link options then REASON_ALREADY_LINKED
                  else REASON_ALREADY_COPIED)) ∧
  fst later = Return false ∧
  destination_storage (snd later) = destination_storage self2 ∧
  copied_files (snd later) = copied_files self2 ∧
  symlinked_files (snd later) = symlinked_files self2 ∧
  unmodified_files (snd later) = unmodified_files self2.
Proof.
  intros Hd H1 Hmid Hp later.
  assert (Hc1 : claimed options (destination_of source2 prefix2) self1).
  { rewrite <- Hd.
    pose proof (copy_file_claims source1 prefix1 ss1 options self) as H.
    unfold wp in H. rewrite H1 in H. by apply H. }
  assert (Hc2 : claimed options (destination_of source2 prefix2) self2).
  { pose proof (preserves_for_each
                  (claimed options (destination_of source2 prefix2)) between
                  (copy_each options)
                  (copy_each_keeps_claim _ options) self1 Hc1) as H.
    by rewrite Hmid in H. }
  split; [by apply file_status_claimed|].
  exact (copy_file_skips_claimed source2 prefix2 ss2 options self2 Hc2 Hp).
Qed.

Lemma C6_first_writer_wins_witness :
  let options := quiet false false in
  let self := init (local_storage ∅) in
  let self1 :=
    snd (copy_file "a.css" None (plain_source 5 "one") options self) in
  let self2 :=
    snd (for_each [("b.css", None, plain_source 7 "b")] (copy_each options)
           self1) in
  let later := copy_file "a.css" None (plain_source 9 "two") options self2 in
  fst later = Return false ∧
  destination_storage (snd later) = destination_storage self2.
Proof.
  intros options self self1 self2 later.
  destruct (C6_first_writer_wins options self self1 self2
              "a.css" None (plain_source 5 "one")
              [("b.css", None, plain_source 7 "b")]
              "a.css" None (plain_source 9 "two"))
    as (_ & Hr & Hs & _); [ | | | | by split ].
  - reflexivity.
  - by vm_compute.
  - by vm_compute.
  - by eexists.
Defined.

(** ** Dry run against real run *)

Lemma copy_file_sim st0 d r source prefix ss options :
  sim st0 d r →
  wp (copy_file source prefix ss options)
    (λ od d',
       wp (copy_file source prefix ss options)
         (λ or r',
            od = or ∧ agree st0 d' r' ∧
            (∀ b, od = Return b → sim st0 d' r')) r) d.
Proof.
  intros [Hst Hdry Hreal Hc Hs Hu Hl Hlp Hloc Hmt Hf].
  pose proof (file_status_agree ss source (destination_of source prefix)
                (with_symlink (link options) d)
                (with_symlink (link options) r)) as Hfs.
  simpl in Hfs. rewrite Hst in Hfs.
  specialize (Hfs Hc Hs eq_refl Hloc Hmt (Hf _)).
  assert (Hpath : ∀ n, storage_path (destination_storage r) n
                       = storage_path (destination_storage d) n).
  { intros n. unfold storage_path. by rewrite Hst, Hloc. }
  assert (Hlp' : destination_local r = true →
                 ∀ n, storage_path (destination_storage d) n ≠ None).
  { intros Ht n. rewrite <- Hpath. unfold storage_path.
    by destruct (Hlp Ht) as [root ->]. }
  unfold copy_file. wp_run.
  all: unfold storage_delete in *; rewrite ?storage_path_with_files in *.
  all: rewrite ?Hpath in *; simplify_eq.
  all: try by (exfalso; eapply Hlp'; eauto).
  all: (split; [reflexivity|]).
  all: (split; [unfold agree; cbn; repeat split; congruence|]).
  all: try done.
  all: intros ? _; constructor; cbn; try done; try congruence.
  all: unfold shutil_copy2, os_symlink, storage_save, with_files; cbn.
  all: try by (intros _; apply Hlp).
  all: intros n Hn1 Hn2.
  all: rewrite lookup_insert_ne, lookup_delete_ne by set_solver.
  all: apply Hf; set_solver.
Qed.

Lemma sim_agree st0 d r : sim st0 d r → agree st0 d r.
Proof. intros []. by repeat split. Qed.

Lemma rel_ret {A} st0 (a : A) d r :
  sim st0 d r → rel_at st0 (ret a) (ret a) d r.
Proof. intros H. split; [done|]. split; [by apply sim_agree|done]. Qed.

Lemma rel_raise {A} st0 e d r :
  sim st0 d r → rel_at st0 (@raise A e) (raise e) d r.
Proof. intros H. split; [done|]. split; [by apply sim_agree|done]. Qed.

Lemma rel_bind {A B} st0 (m1 m2 : M A) (k1 k2 : A → M B) d r :
  rel_at st0 m1 m2 d r →
  (∀ a d' r', sim st0 d' r' → rel_at st0 (k1 a) (k2 a) d' r') →
  rel_at st0 (bind m1 k1) (bind m2 k2) d r.
Proof.
  unfold rel_at, wp, bind. intros (Ho & Ha & Hs) Hk.
  destruct (m1 d) as [[a1|e1] d'], (m2 r) as [[a2|e2] r']; simpl in *;
    simplify_eq.
  - apply Hk. by apply (Hs a2).
  - split; [done|]. by split.
Qed.

Lemma rel_get_bind {B} st0 (k1 k2 : Command → M B) d r :
  rel_at st0 (k1 d) (k2 r) d r → rel_at st0 (bind get k1) (bind get k2) d r.
Proof. done. Qed.

Lemma rel_when st0 (b : bool) m1 m2 d r :
  sim st0 d r → rel_at st0 m1 m2 d r →
  rel_at st0 (when b m1) (when b m2) d r.
Proof. destruct b; [done|]. intros H _. by apply rel_ret. Qed.

Lemma rel_when_write st0 (b1 b2 : bool) msg1 msg2 d r :
  sim st0 d r →
  rel_at st0 (when b1 (write msg1)) (when b2 (write msg2)) d r.
Proof.
  intros H. unfold rel_at. do 2 (apply wp_when_write).
  destruct H. repeat split; done.
Qed.

Lemma rel_for_each {A} st0 (l : list A) (body1 body2 : A → M unit) d r :
  (∀ x d' r', sim st0 d' r' → rel_at st0 (body1 x) (body2 x) d' r') →
  sim st0 d r →
  rel_at st0 (for_each l body1) (for_each l body2) d r.
Proof.
  intros Hb. revert d r. induction l as [|x l IH]; intros d r H; simpl.
  - by apply rel_ret.
  - apply rel_bind; [by apply Hb|]. intros _ d' r' H'. by apply IH.
Qed.

Lemma copy_file_options source prefix ss o1 o2 :
  link o1 = link o2 →
  copy_file source prefix ss o1 = copy_file source prefix ss o2.
Proof. unfold copy_file. by intros ->. Qed.

Lemma rel_copy_each st0 options f d r :
  sim st0 d r →
  rel_at st0 (copy_each (set_dry_run true options) f)
    (copy_each (set_dry_run false options) f) d r.
Proof.
  intros H. destruct f as [[source prefix] ss]. unfold copy_each.
  rewrite (copy_file_options source prefix ss (set_dry_run true options)
             options eq_refl).
  rewrite (copy_file_options source prefix ss (set_dry_run false options)
             options eq_refl).
  apply rel_bind; [by apply copy_file_sim|].
  intros _ d' r' H'. by apply rel_ret.
Qed.

Lemma run_dry_real env options st :
  rel_at st (handle_noargs env (set_dry_run true options))
    (handle_noargs env (set_dry_run false options)) (init st) (init st).
Proof.
  unfold handle_noargs. cbn [link interactive use_default_ignore_patterns
                             ignore_patterns set_dry_run].
  apply rel_bind.
  { unfold rel_at, reset_run. do 2 (apply wp_modify).
    split; [done|]. split; [by repeat split|]. intros _ _.
    constructor; cbn; try done.
    unfold storage_path. destruct (location st); [by eexists|done]. }
  intros _ d r H. apply rel_get_bind.
  assert (Hl : destination_local d = destination_local r) by by destruct H.
  rewrite Hl.
  apply rel_bind.
  { apply rel_when; [done|]. apply rel_bind.
    - apply rel_when; [done|]. by apply rel_raise.
    - intros _ d' r' H'. apply rel_when; [done|]. by apply rel_raise. }
  clear d r H Hl. intros _ d r H.
  apply rel_bind.
  { apply rel_when; [done|]. apply rel_when; [done|]. by apply rel_raise. }
  clear d r H. intros _ d r H.
  apply rel_bind.
  { apply rel_for_each; [|done]. intros finder d' r' H'.
    apply rel_for_each; [|done]. intros f d2 r2 H2.
    by apply rel_copy_each. }
  clear d r H. intros _ d r H.
  apply rel_get_bind. by apply rel_when_write.
Qed.

(** C7: a dry run leaves the destination storage as it found it, ends with
    the same outcome as the real run over the same finders and the same
    initial storage, and records the same paths in [copied_files],
    [symlinked_files] and [unmodified_files]; the counts of the summary
    are therefore the same. *)
Theorem C7_dry_run_bookkeeping env options st :
  let dry := run env (set_dry_run true options) st in
  let real := run env (set_dry_run false options) st in
  destination_storage (snd dry) = st ∧
  fst dry = fst real ∧
  copied_files (snd dry) = copied_files (snd real) ∧
  symlinked_files (snd dry) = symlinked_files (snd real) ∧
  unmodified_files (snd dry) = unmodified_files (snd real) ∧
  (size (copied_files (snd dry)) + size (symlinked_files (snd dry))
   = size (copied_files (snd real)) + size (symlinked_files (snd real)))%nat ∧
  size (unmodified_files (snd dry)) = size (unmodified_files (snd real)).
Proof.
  intros dry real.
  destruct (run_dry_real env options st) as (Ho & (Hst & Hc & Hs & Hu) & _).
  fold (run env (set_dry_run true options) st) in *.
  fold (run env (set_dry_run false options) st) in *.
  fold dry in Ho, Hst, Hc, Hs, Hu. fold real in Ho, Hc, Hs, Hu.
  repeat split; try done. all: congruence.
Qed.

(** ** Cancellation at the prompt *)

(** C9: with interactive confirmation on, any reply other than the literal
    [yes] ends [handle_noargs] with a [CommandError] before any file is
    looked at: the destination storage is untouched and the three sets are
    empty.  When the prompt is reached (Copy mode, or Symlink mode on a
    platform and a destination that allow it) the error is the cancellation
    error. *)
Theorem C9_cancelled_before_any_mutation env options self :
  interactive options = true →
  raw_input env ≠ "yes" →
  let r := handle_noargs env options self in
  destination_storage (snd r) = destination_storage self ∧
  copied_files (snd r) = ∅ ∧
  symlinked_files (snd r) = ∅ ∧
  unmodified_files (snd r) = ∅ ∧
  (∃ msg, fst r = Raise (CommandError msg)) ∧
  (link options = false ∨
   (sys_platform env ≠ "win32" ∧ destination_local self = true) →
   fst r = Raise (CommandError "Static files build cancelled.")).
Proof.
  intros Hi Hno r.
  assert (Hb : bool_decide (raw_input env ≠ "yes") = true)
    by by apply bool_decide_eq_true_2.
  change (wp (handle_noargs env options)
            (λ o self',
               destination_storage self' = destination_storage self ∧
               copied_files self' = ∅ ∧
               symlinked_files self' = ∅ ∧
               unmodified_files self' = ∅ ∧
               (∃ msg, o = Raise (CommandError msg)) ∧
               (link options = false ∨
                (sys_platform env ≠ "win32" ∧
                 destination_local self = true) →
                o = Raise (CommandError "Static files build cancelled.")))
            self).
  unfold handle_noargs. wp_run.
  all: repeat split; try done; try by eexists.
  all: intros [?|[Hp Hl]]; try done.
  - by apply bool_decide_eq_true_1 in Heqb0.
  - by rewrite Hl in Heqb1.
Qed.

Lemma C9_cancelled_witness :
  let env := mkEnv "linux2" "/srv/static" "no" [one_finder [older_css]] in
  let options := mkOptions true [] false false true 1 in
  let r := handle_noargs env options (init stale_css) in
  destination_storage (snd r) = stale_css ∧
  fst r = Raise (CommandError "Static files build cancelled.").
Proof.
  intros env options r.
  destruct (C9_cancelled_before_any_mutation env options (init stale_css))
    as (Hst & _ & _ & _ & _ & Hmsg).
  - reflexivity.
  - discriminate.
  - split; [exact Hst|]. apply Hmsg. by left.
Defined.

(** ** The local path of the source *)

Lemma fails_bind_l {A B} (m : M A) (k : A → M B) :
  fails m → fails (bind m k).
Proof.
  intros Hm self. destruct (Hm self) as [e He]. exists e.
  unfold bind. destruct (m self) as [[a|e'] self']; simpl in *; congruence.
Qed.

Lemma fails_bind_r {A B} (m : M A) (k : A → M B) :
  (∀ a, fails (k a)) → fails (bind m k).
Proof.
  intros Hk self. unfold bind.
  destruct (m self) as [[a|e] self']; [apply Hk|by exists e].
Qed.

Lemma fails_for_each {A} (l : list A) (body : A → M unit) x :
  x ∈ l → fails (body x) → fails (for_each l body).
Proof.
  intros Hin Hx. induction Hin as [x l|x y l Hin IH]; simpl.
  - by apply fails_bind_l.
  - apply fails_bind_r. intros _. by apply IH.
Qed.

Lemma copy_file_needs_source_path source prefix ss options self :
  src_path ss source = None →
  copy_file source prefix ss options self = (Raise NotImplementedError, self).
Proof. intros H. unfold copy_file, bind. by rewrite H. Qed.

(** C10: [copy_file] resolves the local path of the source before
    anything else, whatever the mode, the locality of the destination and
    the dry-run flag: on a source storage without local paths it raises
    [NotImplementedError] and leaves the command as it was, and a run whose
    finders yield such a file ends with an exception. *)
Theorem C10_source_path_first env options source prefix ss finder :
  src_path ss source = None →
  (∀ self,
     copy_file source prefix ss options self
     = (Raise NotImplementedError, self)) ∧
  (finder ∈ get_finders env →
   (source, prefix, ss) ∈ finder_list finder (collected_patterns options) →
   ∀ self, ∃ e, fst (handle_noargs env options self) = Raise e).
Proof.
  intros Hp. split.
  { intros self. by apply copy_file_needs_source_path. }
  intros Hf Hin. change (fails (handle_noargs env options)).
  unfold handle_noargs. fold (collected_patterns options).
  apply fails_bind_r; intros _. apply fails_bind_r; intros c.
  apply fails_bind_r; intros _. apply fails_bind_r; intros _.
  apply fails_bind_l.
  apply (fails_for_each _ _ finder Hf).
  apply (fails_for_each _ _ (source, prefix, ss) Hin).
  unfold copy_each. apply fails_bind_l. intros self.
  exists NotImplementedError.
  by rewrite copy_file_needs_source_path.
Qed.

Lemma C10_source_path_first_witness :
  let env := posix [one_finder [("a.css", None, pathless_source)]] in
  let options := quiet true false in
  copy_file "a.css" None pathless_source options (init (remote_storage ∅))
  = (Raise NotImplementedError, init (remote_storage ∅)) ∧
  ∃ e, fst (handle_noargs env options (init (remote_storage ∅))) = Raise e.
Proof.
  intros env options.
  destruct (C10_source_path_first env options "a.css" None pathless_source
              (one_finder [("a.css", None, pathless_source)]) eq_refl)
    as [Hcopy Hrun].
  split; [apply Hcopy|]. apply Hrun.
  - simpl. constructor.
  - simpl. constructor.
Defined.

(** ** The decision on a destination that exists *)

(** On a destination of the run that exists, is not yet claimed, is a
    regular file of a storage with local paths, in Copy mode, the file is
    skipped as not modified exactly when [file_has_changed] answers
    [True]. *)
Lemma file_status_unclaimed ss source destination self :
  destination ∉ copied_files self →
  destination ∉ symlinked_files self →
  storage_exists (destination_storage self) destination = true →
  is_Some (storage_path (destination_storage self) destination) →
  _symlink self = false →
  os_path_islink (destination_storage self) destination = false →
  fst (file_status ss source destination self)
  = if file_has_changed self ss source destination
    then Return (STATUS_SKIP, Some REASON_NOT_MODIFIED)
    else Return (STATUS_COPY, None).
Proof.
  intros Hc Hs He [p Hp] Hm Hl. unfold file_status.
  rewrite !decide_False by done. rewrite He, Hp, Hm, Hl. simpl.
  by destruct (file_has_changed self ss source destination).
Qed.

(** C1 (evaluation): the destination [a.css] has time stamp 5.  The change
    detection is right (5 against 5 is unchanged, 6 against 5 is changed),
    but the engine acts on it the wrong way round: the unchanged file is
    copied again, and the changed file is skipped as not modified and the
    old content stays. *)
Theorem C1_boundary_inverted :
  let options := quiet false false in
  let same := posix [one_finder [("a.css", None, plain_source 5 "new")]] in
  let newer := posix [one_finder [("a.css", None, plain_source 6 "new")]] in
  file_has_changed (init fresh_css) (plain_source 5 "new") "a.css" "a.css"
  = false ∧
  fst (file_status (plain_source 5 "new") "a.css" "a.css" (init fresh_css))
  = Return (STATUS_COPY, None) ∧
  elements (copied_files (snd (run same options fresh_css))) = ["a.css"] ∧
  elements (unmodified_files (snd (run same options fresh_css))) = [] ∧
  file_has_changed (init fresh_css) (plain_source 6 "new") "a.css" "a.css"
  = true ∧
  fst (file_status (plain_source 6 "new") "a.css" "a.css" (init fresh_css))
  = Return (STATUS_SKIP, Some REASON_NOT_MODIFIED) ∧
  elements (copied_files (snd (run newer options fresh_css))) = [] ∧
  elements (unmodified_files (snd (run newer options fresh_css)))
  = ["a.css"] ∧
  files (destination_storage (snd (run newer options fresh_css))) !! "a.css"
  = Some (mkEntry false 5 "old").
Proof. repeat split; by vm_compute. Qed.

(** C2 (evaluation): the destination storage cannot report time stamps.
    [file_has_changed] answers [True], as the claim says, and the engine
    then skips the file as not modified instead of overwriting it. *)
Theorem C2_unreadable_stamp_skipped :
  let options := quiet false false in
  let env := posix [one_finder [("a.css", None, plain_source 9 "new")]] in
  let final := snd (run env options timeless_css) in
  storage_modified_time timeless_css "a.css" = None ∧
  file_has_changed (init timeless_css) (plain_source 9 "new") "a.css" "a.css"
  = true ∧
  fst (file_status (plain_source 9 "new") "a.css" "a.css"
         (init timeless_css))
  = Return (STATUS_SKIP, Some REASON_NOT_MODIFIED) ∧
  elements (unmodified_files final) = ["a.css"] ∧
  elements (copied_files final) = [] ∧
  files (destination_storage final) !! "a.css"
  = Some (mkEntry false 5 "old").
Proof. repeat split; by vm_compute. Qed.

(** C3 (evaluation): two runs in Copy mode over the same file, nothing
    changed in between.  The second run copies the file again: one file
    copied, none unmodified. *)
Theorem C3_second_run_copies_again :
  let options := quiet false false in
  let env := posix [one_finder [("a.css", None, plain_source 5 "body{}")]] in
  let first := snd (run env options (local_storage ∅)) in
  let second := snd (run env options (destination_storage first)) in
  files (destination_storage first) !! "a.css"
  = Some (mkEntry false 5 "body{}") ∧
  size (copied_files second) = 1%nat ∧
  size (unmodified_files second) = 0%nat.
Proof. repeat split; by vm_compute. Qed.

(** C5 (evaluation): in Copy mode, on an existing regular file, a file
    detected as changed does not bypass the skip: it is the one that is
    skipped as not modified.  The two other ways round the skip work: a
    destination that is a link, and Symlink mode, both lead to a write, and
    a destination filled in Symlink mode is a regular file again after a
    run in Copy mode. *)
Theorem C5_changed_file_is_skipped :
  let changed := plain_source 6 "new" in
  let linked :=
    local_storage {[ "a.css" := mkEntry true 5 "/app/static/a.css" ]} in
  file_has_changed (init fresh_css) changed "a.css" "a.css" = true ∧
  fst (copy_file "a.css" None changed (quiet false false) (init fresh_css))
  = Return false ∧
  destination_storage
    (snd (copy_file "a.css" None changed (quiet false false)
            (init fresh_css))) = fresh_css ∧
  fst (copy_file "a.css" None changed (quiet false false) (init linked))
  = Return true ∧
  fst (copy_file "a.css" None changed (quiet false true) (init fresh_css))
  = Return true ∧
  let env := posix [one_finder [("a.css", None, plain_source 5 "body{}")]] in
  let linked_run := snd (run env (quiet false true) (local_storage ∅)) in
  let copy_run :=
    snd (run env (quiet false false) (destination_storage linked_run)) in
  is_link <$> files (destination_storage linked_run) !! "a.css" = Some true ∧
  is_link <$> files (destination_storage copy_run) !! "a.css" = Some false.
Proof. repeat split; by vm_compute. Qed.

(** C8 (evaluation): the destination storage has no local paths.  [init]
    turns that into [destination_local = False] without an error, but in
    Copy mode [file_status] asks the storage for the path of an existing,
    changed destination, and the run ends with [NotImplementedError]. *)
Theorem C8_path_error_surfaces :
  let options := quiet false false in
  let env := posix [one_finder [("a.css", None, plain_source 5 "new")]] in
  destination_local (init remote_css) = false ∧
  fst (file_status (plain_source 5 "new") "a.css" "a.css" (init remote_css))
  = Raise NotImplementedError ∧
  fst (run env options remote_css) = Raise NotImplementedError.
Proof. repeat split; by vm_compute. Qed.

(** ** The settings module *)

Lemma setdefaultattr_eq obj attr d :
  setdefaultattr obj attr d
  = (default d (obj !! attr), <[attr := default d (obj !! attr)]> obj).
Proof.
  unfold setdefaultattr. destruct (obj !! attr) as [v|] eqn:E; simpl.
  - by rewrite insert_id.
  - done.
Qed.

(** X1: [setdefaultattr] returns the attribute as it stands afterwards,
    never replaces an attribute that was set, and touches no other
    attribute. *)
Theorem X1_setdefaultattr_lookup obj attr d :
  let '(v, obj') := setdefaultattr obj attr d in
  obj' !! attr = Some v ∧
  (∀ w, obj !! attr = Some w → v = w ∧ obj' = obj) ∧
  (obj !! attr = None → v = d) ∧
  (∀ other, other ≠ attr → obj' !! other = obj !! other).
Proof.
  unfold setdefaultattr. destruct (obj !! attr) as [v|] eqn:E.
  - split; [done|]. split; [|done]. intros w ?. by simplify_eq.
  - split; [apply lookup_insert_eq|]. split; [done|]. split; [done|].
    intros other Hne. by apply lookup_insert_ne.
Qed.

(** X2: a second call of [setdefaultattr] for the same attribute, with
    whatever default, returns what the first call returned and leaves the
    object as the first call left it. *)
Theorem X2_setdefaultattr_twice obj attr d d' :
  let first := setdefaultattr obj attr d in
  setdefaultattr (snd first) attr d' = first.
Proof.
  unfold setdefaultattr. destruct (obj !! attr) as [v|] eqn:E; simpl.
  - by rewrite E.
  - by rewrite lookup_insert_eq.
Qed.

Lemma setdefaultattr_spec obj attr d :
  ∃ v, setdefaultattr obj attr d = (v, <[attr := v]> obj) ∧
       v = default d (obj !! attr).
Proof. eexists. split; [apply setdefaultattr_eq|done]. Qed.

Ltac settings_lookup :=
  repeat first
    [ rewrite lookup_insert_eq
    | rewrite lookup_insert_ne by discriminate ].

Ltac settings_step :=
  match goal with
  | |- context [setdefaultattr ?o ?a ?d] =>
      let v := fresh "v" in
      let E := fresh "E" in
      let H := fresh "H" in
      destruct (setdefaultattr_spec o a d) as (v & E & H);
      rewrite E; clear E;
      revert H; settings_lookup; intros H
  end.

(** X3: importing the settings module leaves every attribute that was set
    as it was, sets the five [STATICFILES_*] attributes that were missing
    to their defaults, and binds each constant of the module to the
    attribute of the same name as it stands afterwards; importing it again
    changes nothing. *)
Theorem X3_load_settings settings :
  let '(m, settings') := load_settings settings in
  ROOT m = default (Str EmptyString) (settings !! "STATICFILES_ROOT") ∧
  URL m = default (Str "/static") (settings !! "STATICFILES_URL") ∧
  DIRS m = default (Tuple []) (settings !! "STATICFILES_DIRS") ∧
  STORAGE m
  = default (Str "staticfiles.storage.StaticFilesStorage")
      (settings !! "STATICFILES_STORAGE") ∧
  FINDERS m = default default_FINDERS (settings !! "STATICFILES_FINDERS") ∧
  settings' !! "STATICFILES_ROOT" = Some (ROOT m) ∧
  settings' !! "STATICFILES_URL" = Some (URL m) ∧
  settings' !! "STATICFILES_DIRS" = Some (DIRS m) ∧
  settings' !! "STATICFILES_STORAGE" = Some (STORAGE m) ∧
  settings' !! "STATICFILES_FINDERS" = Some (FINDERS m) ∧
  (∀ attr v, settings !! attr = Some v → settings' !! attr = Some v) ∧
  load_settings settings' = (m, settings').
Proof.
  unfold load_settings. do 5 settings_step.
  cbn [ROOT URL DIRS STORAGE FINDERS].
  do 5 (split; [done|]).
  do 5 (split; [by settings_lookup|]).
  split.
  - intros attr w Hw. subst.
    repeat match goal with
           | |- context [ <[?k := _]> _ !! attr ] =>
               destruct (decide (k = attr)) as [<-|];
               [ by rewrite lookup_insert_eq, Hw
               | rewrite lookup_insert_ne by done ]
           end.
    done.
  - do 5 settings_step. cbn [default] in *. unfold id in *.
    clear H H0 H1 H2 H3. subst. f_equal.
    repeat (rewrite insert_id; [|by settings_lookup]). done.
Qed.

(** ** More rules for postconditions *)

Lemma wp_conseq {A} (m : M A) (Q Q' : outcome A → Command → Prop) self :
  wp m Q self → (∀ o self', Q o self' → Q' o self') → wp m Q' self.
Proof. unfold wp. auto. Qed.

(** A loop keeps [I] as long as it goes on, and ends in [E] when its body
    raises. *)
Lemma wp_for_each {A} (I : Command → Prop)
    (E : Exception → Command → Prop) (l : list A) body self :
  I self →
  (∀ x c, x ∈ l → I c →
     wp (body x)
       (λ o c', match o with Return _ => I c' | Raise e => E e c' end) c) →
  wp (for_each l body)
    (λ o c', match o with Return _ => I c' | Raise e => E e c' end) self.
Proof.
  revert self. induction l as [|x l IH]; intros self HI Hb; simpl.
  - done.
  - apply wp_bind. eapply wp_conseq.
    + apply Hb; [by left|done].
    + intros [[]|e] c'; [|done]. intros HI'. apply IH; [done|].
      intros y c Hy. apply Hb. by right.
Qed.

(** ** What a refused or cancelled run leaves behind *)

Lemma copy_file_raises source prefix ss options self :
  wp (copy_file source prefix ss options)
    (λ o _, ∀ e, o = Raise e → e = NotImplementedError) self.
Proof. unfold copy_file. wp_run; intros; by simplify_eq. Qed.

Lemma copy_each_raises options f self :
  wp (copy_each options f)
    (λ o _, match o with
            | Return _ => True
            | Raise e => e = NotImplementedError
            end) self.
Proof.
  destruct f as [[source prefix] ss]. unfold copy_each.
  apply wp_bind. eapply wp_conseq; [apply copy_file_raises|].
  intros [b|e] c' H; [done|]. by apply H.
Qed.

(** X4: in Symlink mode, on the [win32] platform or with a destination
    storage without local paths, [handle_noargs] raises the matching
    [CommandError] before the operator is asked and before any file is
    looked at: whatever the reply, the destination storage and the output
    are as they were. *)
Theorem X4_symlink_refused env options self :
  link options = true →
  sys_platform env = "win32" ∨ destination_local self = false →
  let r := handle_noargs env options self in
  fst r
  = Raise (CommandError
             (if bool_decide (sys_platform env = "win32")
              then "Symlinking is not supported by this platform (win32)."
              else "Can't symlink to a remote destination.")) ∧
  destination_storage (snd r) = destination_storage self ∧
  stdout (snd r) = stdout self.
Proof.
  intros Hl Hwhy r.
  change
    (wp (handle_noargs env options)
       (λ o self',
          o = Raise
                (CommandError
                   (if bool_decide (sys_platform env = "win32")
                    then
                      "Symlinking is not supported by this platform (win32)."
                    else "Can't symlink to a remote destination.")) ∧
          destination_storage self' = destination_storage self ∧
          stdout self' = stdout self) self).
  unfold handle_noargs. wp_run.
  all: try (exfalso; destruct Hwhy as [Hw|Hd];
            [ by apply bool_decide_eq_false_1 in Heqb
            | by rewrite Hd in * ]).
  - apply bool_decide_eq_true_1 in Heqb. by rewrite Heqb.
  - done.
Qed.

Lemma X4_symlink_refused_witness :
  let env := mkEnv "win32" "/srv/static" "yes" [one_finder [older_css]] in
  let r := handle_noargs env (quiet false true) (init stale_css) in
  fst r
  = Raise (CommandError
             "Symlinking is not supported by this platform (win32).") ∧
  destination_storage (snd r) = stale_css.
Proof.
  intros env r.
  destruct (X4_symlink_refused env (quiet false true) (init stale_css))
    as (Ho & Hs & _).
  - reflexivity.
  - by left.
  - by split.
Defined.

(** X5: a [CommandError] is raised only before the first file is looked
    at: when [handle_noargs] ends with one, the destination storage and the
    output are as they were and the three sets are empty. *)
Theorem X5_command_error_touches_nothing env options self msg :
  fst (handle_noargs env options self) = Raise (CommandError msg) →
  let self' := snd (handle_noargs env options self) in
  destination_storage self' = destination_storage self ∧
  stdout self' = stdout self ∧
  copied_files self' = ∅ ∧
  symlinked_files self' = ∅ ∧
  unmodified_files self' = ∅.
Proof.
  change (wp (handle_noargs env options)
            (λ o self',
               o = Raise (CommandError msg) →
               destination_storage self' = destination_storage self ∧
               stdout self' = stdout self ∧
               copied_files self' = ∅ ∧
               symlinked_files self' = ∅ ∧
               unmodified_files self' = ∅) self).
  unfold handle_noargs. wp_run; try done.
  all: eapply wp_conseq;
    [ apply (wp_for_each (λ _, True) (λ e _, e = NotImplementedError));
      [done|];
      intros finder c _ _;
      apply (wp_for_each (λ _, True) (λ e _, e = NotImplementedError));
      [done|]; intros f c' _ _; apply copy_each_raises
    | intros [[]|e] c' H; [|by intros; simplify_eq] ].
  all: wp_run; done.
Qed.

Lemma X5_command_error_witness :
  let env := mkEnv "linux2" "/srv/static" "no" [one_finder [older_css]] in
  let options := mkOptions true [] false false true 1 in
  destination_storage (snd (handle_noargs env options (init stale_css)))
  = stale_css.
Proof.
  intros env options.
  by destruct (X5_command_error_touches_nothing env options
                 (init stale_css) "Static files build cancelled."
                 eq_refl) as (H & _).
Defined.

(** ** What one call of [copy_file] does to the destination storage *)

Lemma copy_file_frame source prefix ss options self :
  wp (copy_file source prefix ss options)
    (λ _ self',
       location (destination_storage self')
       = location (destination_storage self) ∧
       has_modified_time (destination_storage self')
       = has_modified_time (destination_storage self) ∧
       now (destination_storage self') = now (destination_storage self) ∧
       (∀ name, name ≠ destination_of source prefix →
                files (destination_storage self') !! name
                = files (destination_storage self) !! name) ∧
       (_dry_run self = true →
        destination_storage self' = destination_storage self) ∧
       destination_local self' = destination_local self ∧
       _dry_run self' = _dry_run self ∧
       _verbosity self' = _verbosity self) self.
Proof.
  unfold copy_file. wp_run.
  all: repeat split; try done.
  all: unfold shutil_copy2, os_symlink, storage_save, storage_delete,
         with_files; cbn.
  all: intros name Hne.
  all: by rewrite ?lookup_insert_ne, ?lookup_delete_ne by done.
Qed.

(** X7: [copy_file] touches the destination storage at the destination
    name of its file only, never changes what the storage can do, and in a
    dry run leaves the storage as it is. *)
Theorem X7_copy_file_frame source prefix ss options self :
  let self' := snd (copy_file source prefix ss options self) in
  let st := destination_storage self in
  let st' := destination_storage self' in
  location st' = location st ∧
  has_modified_time st' = has_modified_time st ∧
  now st' = now st ∧
  (∀ name, name ≠ destination_of source prefix →
           files st' !! name = files st !! name) ∧
  (_dry_run self = true → st' = st) ∧
  destination_local self' = destination_local self ∧
  _dry_run self' = _dry_run self ∧
  _verbosity self' = _verbosity self.
Proof. apply copy_file_frame. Qed.

(** X8: when [copy_file] returns [True] outside a dry run, the destination
    holds what was asked for: in Symlink mode a link to the local path of
    the source; in Copy mode a regular file with the content of the source,
    stamped with the time of the source file on a local destination
    ([copy2]) and with the time of the [save] otherwise. *)
Theorem X8_written_entry source prefix ss options self p :
  src_path ss source = Some p →
  _dry_run self = false →
  fst (copy_file source prefix ss options self) = Return true →
  files (destination_storage (snd (copy_file source prefix ss options self)))
    !! destination_of source prefix
  = Some (if link options
          then mkEntry true (src_stat_mtime ss source) p
          else mkEntry false
                 (if destination_local self then src_stat_mtime ss source
                  else now (destination_storage self))
                 (src_open ss source)).
Proof.
  intros Hp Hdry.
  change (wp (copy_file source prefix ss options)
            (λ o self',
               o = Return true →
               files (destination_storage self')
                 !! destination_of source prefix
               = Some (if link options
                       then mkEntry true (src_stat_mtime ss source) p
                       else mkEntry false
                              (if destination_local self
                               then src_stat_mtime ss source
                               else now (destination_storage self))
                              (src_open ss source))) self).
  unfold copy_file. rewrite Hp. wp_run; try done.
  all: intros _; unfold shutil_copy2, os_symlink, storage_save,
         storage_delete, with_files; cbn.
  all: by rewrite lookup_insert_eq.
Qed.

Lemma X8_written_entry_witness :
  files (destination_storage
           (snd (copy_file "a.css" None (plain_source 1 "two")
                   (quiet false false) (init stale_css)))) !! "a.css"
  = Some (mkEntry false 1 "two").
Proof.
  exact (X8_written_entry "a.css" None (plain_source 1 "two")
           (quiet false false) (init stale_css) "/app/static/a.css"
           eq_refl eq_refl eq_refl).
Defined.

(** X9: when [copy_file] returns [False] it has written nothing: the
    destination storage, [copied_files] and [symlinked_files] are as they
    were, and [unmodified_files] has gained at most the destination path of
    the file. *)
Theorem X9_skip_writes_nothing source prefix ss options self :
  fst (copy_file source prefix ss options self) = Return false →
  let self' := snd (copy_file source prefix ss options self) in
  destination_storage self' = destination_storage self ∧
  copied_files self' = copied_files self ∧
  symlinked_files self' = symlinked_files self ∧
  (unmodified_files self' = unmodified_files self ∨
   unmodified_files self'
   = {[destination_of source prefix]} ∪ unmodified_files self).
Proof.
  change (wp (copy_file source prefix ss options)
            (λ o self',
               o = Return false →
               destination_storage self' = destination_storage self ∧
               copied_files self' = copied_files self ∧
               symlinked_files self' = symlinked_files self ∧
               (unmodified_files self' = unmodified_files self ∨
                unmodified_files self'
                = {[destination_of source prefix]} ∪ unmodified_files self))
            self).
  unfold copy_file. wp_run; try done.
  all: intros _; repeat split; auto.
Qed.

Lemma X9_skip_writes_nothing_witness :
  destination_storage
    (snd (copy_file "a.css" None (plain_source 5 "one") (quiet false false)
            (init stale_css))) = stale_css.
Proof.
  by destruct (X9_skip_writes_nothing "a.css" None (plain_source 5 "one")
                 (quiet false false) (init stale_css) eq_refl)
    as (H & _).
Defined.

(** ** The sets at the end of a run *)

Lemma copy_file_mode source prefix ss options :
  preserves (λ self, (if link options then copied_files self
                      else symlinked_files self) = ∅)
    (copy_file source prefix ss options).
Proof.
  intros self.
  change (wp (copy_file source prefix ss options)
            (λ _ self',
               (if link options then copied_files self
                else symlinked_files self) = ∅ →
               (if link options then copied_files self'
                else symlinked_files self') = ∅) self).
  unfold copy_file. wp_run; done.
Qed.

(** X10: a run fills one set only: in Copy mode [symlinked_files] is empty
    at the end of [handle_noargs], in Symlink mode [copied_files] is, so
    the count of the summary is the size of the set of the mode. *)
Theorem X10_one_set_per_mode env options self :
  let self' := snd (handle_noargs env options self) in
  (if link options then copied_files self' else symlinked_files self') = ∅.
Proof.
  change (wp (handle_noargs env options)
            (λ _ self',
               (if link options then copied_files self'
                else symlinked_files self') = ∅) self).
  unfold handle_noargs. do 2 wp_step.
  apply preserves_wp; [|by destruct (link options)].
  unfold write, copy_each.
  repeat first
    [ apply copy_file_mode
    | apply preserves_ret | apply preserves_raise | apply preserves_get
    | apply preserves_when | apply preserves_for_each; intros ?
    | apply preserves_bind; [|intros ?]
    | apply preserves_modify; intros ? ?; assumption
    | match goal with
      | |- preserves _ (let '(_, _) := ?x in _) => destruct x as [[? ?] ?]
      end ].
Qed.

Lemma copy_file_growth source prefix ss options self :
  wp (copy_file source prefix ss options)
    (λ o self',
       recorded self ⊆ recorded self' ∧
       recorded self' ⊆ {[destination_of source prefix]} ∪ recorded self ∧
       (∀ b, o = Return b → destination_of source prefix ∈ recorded self'))
    self.
Proof.
  unfold recorded, copy_file. wp_run.
  all: repeat split; try set_solver.
Qed.

(** The paths recorded by the run are destination paths of discovered
    files, however the run ends. *)
Lemma handle_noargs_recorded_discovered env options self :
  wp (handle_noargs env options)
    (λ _ self', ∀ d, d ∈ recorded self' → is_discovered env options d) self.
Proof.
  set (I := λ c : Command,
              ∀ d, d ∈ recorded c → is_discovered env options d).
  assert (Hloop : ∀ c, I c →
            wp (for_each (get_finders env) (λ finder,
                  for_each (finder_list finder (collected_patterns options))
                    (copy_each options)))
              (λ o c', match o with Return _ => I c' | Raise _ => I c' end)
              c).
  { intros c Hc. apply (wp_for_each I (λ _, I)); [done|].
    intros finder c1 Hfinder Hc1.
    apply (wp_for_each I (λ _, I)); [done|].
    intros [[source prefix] ss] c2 Hf Hc2.
    unfold copy_each. apply wp_bind.
    eapply wp_conseq; [apply copy_file_growth|].
    intros o c3 (_ & Hsub & _).
    assert (I c3).
    { intros d Hd. apply Hsub in Hd.
      apply elem_of_union in Hd as [Hd|Hd]; [|by apply Hc2].
      apply elem_of_singleton in Hd as ->.
      by exists finder, source, prefix, ss. }
    by destruct o. }
  unfold handle_noargs. fold (collected_patterns options).
  do 2 wp_step.
  assert (I (mkCommand (destination_storage self) (destination_local self)
               ∅ ∅ ∅ (verbosity options) (dry_run options) (_symlink self)
               (stdout self))) as H0.
  { intros d. unfold recorded. cbn. set_solver. }
  revert H0. generalize (mkCommand (destination_storage self)
    (destination_local self) ∅ ∅ ∅ (verbosity options) (dry_run options)
    (_symlink self) (stdout self)).
  intros c Hc. wp_run; try done.
  all: eapply wp_conseq; [by apply Hloop|].
  all: intros [[]|e] c' Hc'; [|done]; wp_run; done.
Qed.

(** X11: whatever [copied_files], [symlinked_files] and
    [unmodified_files] hold at the end of [handle_noargs], normal or not,
    is the destination path of a file that one of the finders yielded. *)
Theorem X11_recorded_are_discovered env options self d :
  let self' := snd (handle_noargs env options self) in
  d ∈ copied_files self' ∪ symlinked_files self' ∪ unmodified_files self' →
  is_discovered env options d.
Proof. apply handle_noargs_recorded_discovered. Qed.

Lemma X11_recorded_are_discovered_witness :
  is_discovered two_finders (quiet false false) "a.css".
Proof.
  apply (X11_recorded_are_discovered two_finders (quiet false false)
           (init stale_css) "a.css").
  refine (bool_decide_unpack _ _). by vm_compute.
Defined.

(** What each round of a loop establishes, and every round keeps, holds
    for all rounds when the loop ends normally. *)
Lemma wp_for_each_all {A} (R : A → Command → Prop) (l : list A) body self :
  (∀ x, x ∈ l → ∀ c, wp (body x) (λ o c', o = Return tt → R x c') c) →
  (∀ x y, preserves (R x) (body y)) →
  wp (for_each l body) (λ o c', o = Return tt → ∀ x, x ∈ l → R x c') self.
Proof.
  intros Hest Hstable. revert self.
  induction l as [|x l IH]; intros self; simpl.
  - intros _ x Hx. by apply elem_of_nil in Hx.
  - apply wp_bind. eapply wp_conseq; [apply Hest; by left|].
    intros [[]|e] c1 Hx; [|done]. specialize (Hx eq_refl).
    assert (Hl : ∀ y, y ∈ l → ∀ c,
              wp (body y) (λ o c', o = Return tt → R y c') c).
    { intros y Hy. apply Hest. by right. }
    specialize (IH Hl c1). unfold wp in *. intros Ho y Hy.
    apply elem_of_cons in Hy as [->|Hy]; [|by apply IH].
    by apply (preserves_for_each (R x) l body (Hstable x) c1).
Qed.

Lemma copy_each_records options source prefix ss self :
  wp (copy_each options (source, prefix, ss))
    (λ o self', o = Return tt → destination_of source prefix ∈ recorded self')
    self.
Proof.
  unfold copy_each. apply wp_bind.
  eapply wp_conseq; [apply copy_file_growth|].
  intros [b|e] c' (_ & _ & H); [|done]. intros _. by apply (H b).
Qed.

Lemma copy_each_keeps_recorded options d f :
  preserves (λ self, d ∈ recorded self) (copy_each options f).
Proof.
  destruct f as [[source prefix] ss]. intros self Hd.
  change (wp (copy_each options (source, prefix, ss))
            (λ _ self', d ∈ recorded self') self).
  unfold copy_each. apply wp_bind.
  eapply wp_conseq; [apply copy_file_growth|].
  intros [b|e] c' (Hsub & _ & _); by apply Hsub.
Qed.

(** At a normal end of the run every discovered file has its destination
    path recorded. *)
Lemma handle_noargs_discovered_recorded env options self :
  wp (handle_noargs env options)
    (λ o self',
       o = Return tt →
       ∀ d, is_discovered env options d → d ∈ recorded self') self.
Proof.
  set (R := λ (f : Discovered) (c : Command),
              destination_of f.1.1 f.1.2 ∈ recorded c).
  set (RF := λ (finder : Finder) (c : Command),
               ∀ f, f ∈ finder_list finder (collected_patterns options) →
                    R f c).
  assert (Hloop : ∀ c,
            wp (for_each (get_finders env) (λ finder,
                  for_each (finder_list finder (collected_patterns options))
                    (copy_each options)))
              (λ o c', o = Return tt →
                       ∀ finder, finder ∈ get_finders env → RF finder c') c).
  { intros c. apply wp_for_each_all.
    - intros finder _ c1. apply wp_for_each_all.
      + intros [[source prefix] ss] _ c2. apply copy_each_records.
      + intros f y. apply copy_each_keeps_recorded.
    - intros finder y c1 HRF. apply preserves_for_each; [|done].
      intros f c2 H2 g Hg. by apply copy_each_keeps_recorded, H2. }
  unfold handle_noargs. fold (collected_patterns options).
  wp_run; try done.
  all: eapply wp_conseq; [apply Hloop|].
  all: intros [[]|e] c' Hc'; [|done]; specialize (Hc' eq_refl).
  all: wp_run; intros _ d (finder & source & prefix & ss & Hfi & Hf & <-).
  all: exact (Hc' finder Hfi (source, prefix, ss) Hf).
Qed.

(** X12: when [handle_noargs] ends normally, the destination path of every
    file the finders yielded is in one of [copied_files],
    [symlinked_files] and [unmodified_files]: no discovered file is left
    out of the books. *)
Theorem X12_discovered_are_recorded env options self d :
  fst (handle_noargs env options self) = Return tt →
  is_discovered env options d →
  let self' := snd (handle_noargs env options self) in
  d ∈ copied_files self' ∪ symlinked_files self' ∪ unmodified_files self'.
Proof.
  intros Ho Hd. by apply (handle_noargs_discovered_recorded env options self).
Qed.

Lemma X12_discovered_are_recorded_witness :
  let self' := snd (handle_noargs two_finders (quiet false false)
                      (init stale_css)) in
  "a.css"
  ∈ copied_files self' ∪ symlinked_files self' ∪ unmodified_files self'.
Proof.
  apply (X12_discovered_are_recorded two_finders (quiet false false)
           (init stale_css) "a.css" eq_refl).
  exists (one_finder [newer_css]), "a.css", None, (plain_source 5 "one").
  split; [by left|]. split; [by left|done].
Defined.

(** ** The destination storage at the end of a run *)

Lemma copy_file_keeps_existing source prefix ss options self :
  all_recorded_exist self →
  wp (copy_file source prefix ss options)
    (λ o self', ∀ b, o = Return b → all_recorded_exist self') self.
Proof.
  unfold all_recorded_exist, recorded. intros [Hdry Hall].
  unfold copy_file. wp_run; try done.
  all: intros ? _; split; [done|].
  all: unfold shutil_copy2, os_symlink, storage_save, storage_delete,
         with_files; cbn.
  all: intros d Hd.
  all: try (destruct (decide (d = destination_of source prefix)) as [->|];
            [ by rewrite lookup_insert_eq
            | rewrite lookup_insert_ne, lookup_delete_ne by done;
              apply Hall; set_solver ]).
  all: try (apply Hall; set_solver).
  all: destruct (decide (d = destination_of source prefix)) as [->|];
    [|apply Hall; set_solver].
  all: unfold storage_exists in *.
  all: match goal with
       | H : bool_decide (is_Some _) = true |- _ =>
           by apply bool_decide_eq_true_1 in H
       end.
Qed.

(** At a normal end of a real run every recorded path exists in the
    destination storage. *)
Lemma handle_noargs_recorded_exist env options self :
  dry_run options = false →
  wp (handle_noargs env options)
    (λ o self', o = Return tt → all_recorded_exist self') self.
Proof.
  intros Hdry.
  assert (Hloop : ∀ c, all_recorded_exist c →
            wp (for_each (get_finders env) (λ finder,
                  for_each (finder_list finder (collected_patterns options))
                    (copy_each options)))
              (λ o c', match o with
                       | Return _ => all_recorded_exist c'
                       | Raise _ => True
                       end) c).
  { intros c Hc.
    apply (wp_for_each all_recorded_exist (λ _ _, True)); [done|].
    intros finder c1 _ Hc1.
    apply (wp_for_each all_recorded_exist (λ _ _, True)); [done|].
    intros [[source prefix] ss] c2 _ Hc2.
    unfold copy_each. apply wp_bind.
    eapply wp_conseq; [by apply copy_file_keeps_existing|].
    intros [b|e] c3 H; [|done]. by apply (H b). }
  unfold handle_noargs. fold (collected_patterns options).
  do 2 wp_step.
  assert (all_recorded_exist
            (mkCommand (destination_storage self) (destination_local self)
               ∅ ∅ ∅ (verbosity options) (dry_run options) (_symlink self)
               (stdout self))) as H0.
  { split; [done|]. intros d. unfold recorded. cbn. set_solver. }
  revert H0. generalize (mkCommand (destination_storage self)
    (destination_local self) ∅ ∅ ∅ (verbosity options) (dry_run options)
    (_symlink self) (stdout self)).
  intros c Hc. wp_run; try done.
  all: eapply wp_conseq; [by apply Hloop|].
  all: intros [[]|e] c' Hc'; [|done]; wp_run; done.
Qed.

(** X13: after a real run (no dry run) that ends normally, every file the
    finders yielded has an entry at its destination path in the destination
    storage. *)
Theorem X13_discovered_exist env options self d :
  dry_run options = false →
  fst (handle_noargs env options self) = Return tt →
  is_discovered env options d →
  storage_exists
    (destination_storage (snd (handle_noargs env options self))) d = true.
Proof.
  intros Hdry Ho Hd.
  pose proof (handle_noargs_discovered_recorded env options self) as H1.
  pose proof (handle_noargs_recorded_exist env options self Hdry) as H2.
  unfold wp in H1, H2. destruct (H2 Ho) as [_ Hall].
  apply bool_decide_eq_true_2, Hall. by apply H1.
Qed.

Lemma X13_discovered_exist_witness :
  storage_exists
    (destination_storage
       (snd (handle_noargs two_finders (quiet false false)
               (init (local_storage ∅))))) "a.css" = true.
Proof.
  apply (X13_discovered_exist two_finders (quiet false false)
           (init (local_storage ∅)) "a.css" eq_refl).
  { by vm_compute. }
  exists (one_finder [newer_css]), "a.css", None, (plain_source 5 "one").
  split; [by left|]. split; [by left|done].
Defined.

Lemma handle_noargs_others_untouched env options self :
  wp (handle_noargs env options)
    (λ _ self', others_untouched env options (destination_storage self)
                  self') self.
Proof.
  set (I := others_untouched env options (destination_storage self)).
  assert (Hloop : ∀ c, I c →
            wp (for_each (get_finders env) (λ finder,
                  for_each (finder_list finder (collected_patterns options))
                    (copy_each options)))
              (λ o c', match o with Return _ => I c' | Raise _ => I c' end)
              c).
  { intros c Hc. apply (wp_for_each I (λ _, I)); [done|].
    intros finder c1 Hfinder Hc1.
    apply (wp_for_each I (λ _, I)); [done|].
    intros [[source prefix] ss] c2 Hf Hc2.
    unfold copy_each. apply wp_bind.
    eapply wp_conseq; [apply copy_file_frame|].
    intros o c3 (Hl & Hm & Hn & Hfr & _).
    assert (I c3).
    { destruct Hc2 as (Hl2 & Hm2 & Hn2 & Hfr2).
      repeat split; try congruence.
      intros name Hname. rewrite Hfr; [by apply Hfr2|].
      intros ->. apply Hname. by exists finder, source, prefix, ss. }
    by destruct o. }
  unfold handle_noargs. fold (collected_patterns options).
  do 2 wp_step.
  assert (I (mkCommand (destination_storage self) (destination_local self)
               ∅ ∅ ∅ (verbosity options) (dry_run options) (_symlink self)
               (stdout self))) as H0 by done.
  revert H0. generalize (mkCommand (destination_storage self)
    (destination_local self) ∅ ∅ ∅ (verbosity options) (dry_run options)
    (_symlink self) (stdout self)).
  intros c Hc. wp_run; try done.
  all: eapply wp_conseq; [by apply Hloop|].
  all: intros [[]|e] c' Hc'; [|done]; wp_run; done.
Qed.

(** X16: a run, however it ends, leaves alone every name of the
    destination storage that no discovered file resolves to: nothing is
    cleaned up, and what the storage can do does not change. *)
Theorem X16_other_names_untouched env options self name :
  ¬ is_discovered env options name →
  let st' := destination_storage (snd (handle_noargs env options self)) in
  files st' !! name = files (destination_storage self) !! name ∧
  location st' = location (destination_storage self) ∧
  has_modified_time st' = has_modified_time (destination_storage self).
Proof.
  intros Hname st'.
  destruct (handle_noargs_others_untouched env options self)
    as (Hl & Hm & _ & Hf).
  split; [by apply Hf|]. by split.
Qed.

Lemma X16_other_names_untouched_witness :
  files (destination_storage
           (snd (handle_noargs two_finders (quiet false false)
                   (init css_and_notes)))) !! "notes.txt"
  = Some (mkEntry false 2 "keep").
Proof.
  destruct (X16_other_names_untouched two_finders (quiet false false)
              (init css_and_notes) "notes.txt") as (H & _); [|exact H].
  intros (finder & source & prefix & ss & Hfinder & Hf & Hd).
  simpl in Hfinder.
  apply elem_of_cons in Hfinder as [->|Hfinder].
  - simpl in Hf. apply list_elem_of_singleton in Hf.
    injection Hf as -> -> ->. discriminate Hd.
  - apply list_elem_of_singleton in Hfinder as ->.
    simpl in Hf. apply list_elem_of_singleton in Hf.
    injection Hf as -> -> ->. discriminate Hd.
Defined.

(** ** Verbosity 0 *)

Lemma copy_file_silent source prefix ss options self :
  (_verbosity self <= 0)%Z →
  wp (copy_file source prefix ss options)
    (λ _ self',
       stdout self' = stdout self ∧ _verbosity self' = _verbosity self) self.
Proof.
  intros Hv. unfold copy_file. wp_run.
  all: rewrite ?bool_decide_eq_false_2 by lia; done.
Qed.

(** X14: at verbosity 0 (or below) [handle_noargs] writes nothing, however
    the run ends: no progress line, no skip line, no summary. *)
Theorem X14_silent env options self :
  (verbosity options <= 0)%Z →
  stdout (snd (handle_noargs env options self)) = stdout self.
Proof.
  intros Hv.
  set (I := λ c : Command, stdout c = stdout self ∧ (_verbosity c <= 0)%Z).
  assert (Hloop : ∀ c, I c →
            wp (for_each (get_finders env) (λ finder,
                  for_each (finder_list finder (collected_patterns options))
                    (copy_each options)))
              (λ o c', match o with Return _ => I c' | Raise _ => I c' end)
              c).
  { intros c Hc. apply (wp_for_each I (λ _, I)); [done|].
    intros finder c1 _ Hc1.
    apply (wp_for_each I (λ _, I)); [done|].
    intros [[source prefix] ss] c2 _ [Hout Hv2].
    unfold copy_each. apply wp_bind.
    eapply wp_conseq; [by apply copy_file_silent|].
    intros o c3 [Ho3 Hv3].
    assert (I c3) by (split; congruence).
    by destruct o. }
  change (wp (handle_noargs env options)
            (λ _ self', stdout self' = stdout self) self).
  unfold handle_noargs. fold (collected_patterns options).
  do 2 wp_step.
  assert (I (mkCommand (destination_storage self) (destination_local self)
               ∅ ∅ ∅ (verbosity options) (dry_run options) (_symlink self)
               (stdout self))) as H0 by done.
  revert H0. generalize (mkCommand (destination_storage self)
    (destination_local self) ∅ ∅ ∅ (verbosity options) (dry_run options)
    (_symlink self) (stdout self)).
  intros c [Hc Hvc]. wp_run; try done.
  all: eapply wp_conseq; [by apply Hloop|].
  all: intros [[]|e] c' [Hc' Hv']; [|done]; wp_run.
  all: by rewrite ?bool_decide_eq_false_2 by lia.
Qed.

Lemma X14_silent_witness :
  stdout (snd (handle_noargs two_finders
                 (mkOptions false [] false false true 0) (init stale_css)))
  = [].
Proof.
  apply (X14_silent two_finders (mkOptions false [] false false true 0)
           (init stale_css)).
  simpl. lia.
Defined.

(** ** The ignore patterns *)

Lemma bind_ext {A B} (m m' : M A) (k k' : A → M B) self :
  m self = m' self →
  (∀ a c, k a c = k' a c) →
  bind m k self = bind m' k' self.
Proof.
  intros Hm Hk. unfold bind. rewrite Hm.
  by destruct (m' self) as [[a|e] c].
Qed.

Lemma for_each_ext {A} (l : list A) (body body' : A → M unit) self :
  (∀ x c, body x c = body' x c) →
  for_each l body self = for_each l body' self.
Proof.
  intros Hb. revert self. induction l as [|x l IH]; intros self; simpl.
  - done.
  - by apply bind_ext.
Qed.

Lemma for_each_fmap {A B} (g : A → B) (l : list A) (body : B → M unit) self :
  for_each (g <$> l) body self = for_each l (λ x, body (g x)) self.
Proof.
  revert self. induction l as [|x l IH]; intros self; simpl.
  - done.
  - by apply bind_ext.
Qed.

(** X15: the patterns handed to the finders are the patterns of the
    options, with [CVS], [.*] and [*~] added unless the defaults are
    switched off, each of them once; and the run depends on a finder only
    through the files it yields on these patterns. *)
Theorem X15_ignore_patterns env options self :
  NoDup (collected_patterns options) ∧
  (∀ p, p ∈ collected_patterns options ↔
        p ∈ ignore_patterns options ∨
        (use_default_ignore_patterns options = true ∧
         p ∈ ["CVS"; ".*"; "*~"])) ∧
  handle_noargs env options self
  = handle_noargs
      (mkEnv (sys_platform env) (settings_ROOT env) (raw_input env)
         (finder_at options <$> get_finders env))
      options self.
Proof.
  split; [unfold collected_patterns; apply NoDup_elements|]. split.
  - intros p. unfold collected_patterns.
    rewrite elem_of_elements, elem_of_list_to_set.
    destruct (use_default_ignore_patterns options).
    + rewrite elem_of_app. naive_solver.
    + naive_solver.
  - unfold handle_noargs. fold (collected_patterns options).
    cbn [sys_platform settings_ROOT raw_input get_finders].
    apply bind_ext; [done|]. intros _ c1.
    apply bind_ext; [done|]. intros c2 c3.
    apply bind_ext; [done|]. intros _ c4.
    apply bind_ext; [done|]. intros _ c5.
    apply bind_ext; [|done].
    by rewrite for_each_fmap.
Qed.

(** ** Runs that cannot fail *)




(** ** Claims *)

(** X17: when [copy_file] returns [True] the destination path was in
    neither [copied_files] nor [symlinked_files], and the call has added it
    to the set of the mode and changed no other set. *)
Theorem X17_true_is_a_fresh_claim source prefix ss options self :
  fst (copy_file source prefix ss options self) = Return true →
  let self' := snd (copy_file source prefix ss options self) in
  let d := destination_of source prefix in
  (d ∉ copied_files self) ∧
  (d ∉ symlinked_files self) ∧
  copied_files self'
  = (if link options then copied_files self
     else {[d]} ∪ copied_files self) ∧
  symlinked_files self'
  = (if link options then {[d]} ∪ symlinked_files self
     else symlinked_files self) ∧
  unmodified_files self' = unmodified_files self.
Proof.
  change (wp (copy_file source prefix ss options)
            (λ o self',
               o = Return true →
               (destination_of source prefix ∉ copied_files self) ∧
               (destination_of source prefix ∉ symlinked_files self) ∧
               copied_files self'
               = (if link options then copied_files self
                  else {[destination_of source prefix]} ∪ copied_files self) ∧
               symlinked_files self'
               = (if link options
                  then {[destination_of source prefix]} ∪ symlinked_files self
                  else symlinked_files self) ∧
               unmodified_files self' = unmodified_files self) self).
  unfold copy_file. wp_run; try done.
Qed.

Lemma X17_true_is_a_fresh_claim_witness :
  copied_files
    (snd (copy_file "a.css" None (plain_source 1 "two") (quiet false false)
            (init stale_css)))
  = {[ "a.css" ]} ∪ ∅.
Proof.
  by destruct (X17_true_is_a_fresh_claim "a.css" None (plain_source 1 "two")
                 (quiet false false) (init stale_css) eq_refl)
    as (_ & _ & H & _).
Defined.

(** ** Links and regular files at the end of a run *)

Lemma copy_file_keeps_mode source prefix ss options self :
  all_recorded_of_mode options self →
  wp (copy_file source prefix ss options)
    (λ o self', ∀ b, o = Return b → all_recorded_of_mode options self') self.
Proof.
  unfold all_recorded_of_mode, recorded. intros [Hdry Hall].
  unfold copy_file. wp_run; try done.
  all: intros ? _; split; [done|].
  all: unfold shutil_copy2, os_symlink, storage_save, storage_delete,
         with_files; cbn.
  all: intros d Hd.
  all: try (destruct (decide (d = destination_of source prefix)) as [->|];
            [ rewrite lookup_insert_eq; by eexists
            | rewrite lookup_insert_ne, lookup_delete_ne by done;
              apply Hall; set_solver ]).
  all: try (apply Hall; set_solver).
  all: destruct (decide (d = destination_of source prefix)) as [->|];
    [|apply Hall; set_solver].
  all: unfold storage_exists, os_path_islink in *.
  all: match goal with
       | H : bool_decide (is_Some _) = true |- _ =>
           apply bool_decide_eq_true_1 in H; destruct H as [e He]
       end.
  all: exists e; split; [done|]. all: rewrite He in *. all: congruence.
Qed.

Lemma handle_noargs_recorded_of_mode env options self :
  dry_run options = false →
  wp (handle_noargs env options)
    (λ o self', o = Return tt → all_recorded_of_mode options self') self.
Proof.
  intros Hdry.
  assert (Hloop : ∀ c, all_recorded_of_mode options c →
            wp (for_each (get_finders env) (λ finder,
                  for_each (finder_list finder (collected_patterns options))
                    (copy_each options)))
              (λ o c', match o with
                       | Return _ => all_recorded_of_mode options c'
                       | Raise _ => True
                       end) c).
  { intros c Hc.
    apply (wp_for_each (all_recorded_of_mode options) (λ _ _, True));
      [done|].
    intros finder c1 _ Hc1.
    apply (wp_for_each (all_recorded_of_mode options) (λ _ _, True));
      [done|].
    intros [[source prefix] ss] c2 _ Hc2.
    unfold copy_each. apply wp_bind.
    eapply wp_conseq; [by apply copy_file_keeps_mode|].
    intros [b|e] c3 H; [|done]. by apply (H b). }
  unfold handle_noargs. fold (collected_patterns options).
  do 2 wp_step.
  assert (all_recorded_of_mode options
            (mkCommand (destination_storage self) (destination_local self)
               ∅ ∅ ∅ (verbosity options) (dry_run options) (_symlink self)
               (stdout self))) as H0.
  { split; [done|]. intros d. unfold recorded. cbn. set_solver. }
  revert H0. generalize (mkCommand (destination_storage self)
    (destination_local self) ∅ ∅ ∅ (verbosity options) (dry_run options)
    (_symlink self) (stdout self)).
  intros c Hc. wp_run; try done.
  all: eapply wp_conseq; [by apply Hloop|].
  all: intros [[]|e] c' Hc'; [|done]; wp_run; done.
Qed.

(** X18: after a real run that ends normally, the destination of every
    file the finders yielded is of the kind of the mode: a symbolic link
    after a run in Symlink mode, not a link after a run in Copy mode,
    whatever it was before. *)
Theorem X18_kind_follows_mode env options self d :
  dry_run options = false →
  fst (handle_noargs env options self) = Return tt →
  is_discovered env options d →
  os_path_islink
    (destination_storage (snd (handle_noargs env options self))) d
  = link options.
Proof.
  intros Hdry Ho Hd.
  pose proof (handle_noargs_discovered_recorded env options self) as H1.
  pose proof (handle_noargs_recorded_of_mode env options self Hdry) as H2.
  unfold wp in H1, H2. destruct (H2 Ho) as [_ Hall].
  destruct (Hall d (H1 Ho d Hd)) as (e & He & Hk).
  unfold os_path_islink. by rewrite He.
Qed.

Lemma X18_kind_follows_mode_witness :
  os_path_islink
    (destination_storage
       (snd (handle_noargs two_finders (quiet false false)
               (init linked_css)))) "a.css" = false.
Proof.
  apply (X18_kind_follows_mode two_finders (quiet false false)
           (init linked_css) "a.css" eq_refl).
  { by vm_compute. }
  exists (one_finder [newer_css]), "a.css", None, (plain_source 5 "one").
  split; [by left|]. split; [by left|done].
Defined.
